(** * HandwritingEngine: glyph normalisation and page layout

    A shallow embedding of [src/HandwritingEngine.py]
    ([NormalizedHandwritingEngine.process_letter_contour] and
    [NormalizedHandwritingEngine.generate]) and the properties of its
    specification.

    Conventions of the embedding:
    - a Python [int] is a [Z]; a Python [float] is a binary64 value of
      [SpecFloat] (53 bits of precision, exponents below 1024), with the
      operations of the source rounded to nearest-even as IEEE 754 does;
    - a Python [str] is the list of its Unicode code points;
    - a call that can raise returns an [outcome]; code that also reads the
      global random generator lives in the monad [M];
    - for the determinism of the normaliser, [process_letter_contour] is
      also given over the whole state of the interpreter ([Runtime]), where
      every library call may read the state and change it;
    - a NumPy array of [uint8] is its shape and its read function;
    - what OpenCV and the file system compute from pixels (decoding,
      grey conversion, Otsu's level, contour tracing, area interpolation)
      is taken from a [Platform]; everything the source itself computes is
      defined here. *)

From Stdlib Require Import ZArith NArith List Lia Bool String Ascii.
From Stdlib Require Import Floats.SpecFloat Floats.PrimFloat Floats.FloatOps.
Import ListNotations.
Open Scope Z_scope.
#[local] Set Warnings "-inexact-float".

(** ** Python values *)

(** A character is a Unicode code point, a string is a list of them. *)
Definition pychar := N.
Definition pystr := list pychar.

Definition ord (a : ascii) : pychar := N_of_ascii a.
Definition py (s : string) : pystr := map ord (list_ascii_of_string s).

Definition pychar_eqb (a b : pychar) : bool := N.eqb a b.

Fixpoint pystr_eqb (a b : pystr) : bool :=
  match a, b with
  | [], [] => true
  | x :: a', y :: b' => pychar_eqb x y && pystr_eqb a' b'
  | _, _ => false
  end.

(** [x in l] for a list of strings. *)
Definition mem (x : pystr) (l : list pystr) : bool := existsb (pystr_eqb x) l.

(** The exceptions the modelled code can meet. *)
Inductive exn : Type :=
| OverflowError
| ValueError
| ZeroDivisionError
| cv2_error.

(** The result of a call: a value, or an exception that propagates. *)
Inductive outcome (A : Type) : Type :=
| Ret (a : A)
| Raise (e : exn).
Arguments Ret {A} a.
Arguments Raise {A} e.

Definition obind {A B} (m : outcome A) (k : A -> outcome B) : outcome B :=
  match m with
  | Ret a => k a
  | Raise e => Raise e
  end.

Declare Scope py_scope.
Delimit Scope py_scope with py_scope.
Notation "x <- m ;; k" := (obind m (fun x => k))
  (at level 61, m at next level, right associativity) : py_scope.
Notation "' p <- m ;; k" := (obind m (fun x => match x with p => k end))
  (at level 61, p pattern, m at next level, right associativity) : py_scope.
Open Scope py_scope.

(** ** Floating point *)

Module Float.

Definition float := spec_float.

Definition prec : Z := 53.
Definition emax : Z := 1024.

(** The literals of the source, each the binary64 value nearest to the
    decimal, as Python reads them. *)
Definition c_0_20 : float := Eval vm_compute in Prim2SF 0.20%float.
Definition c_0_65 : float := Eval vm_compute in Prim2SF 0.65%float.
Definition c_0_35 : float := Eval vm_compute in Prim2SF 0.35%float.
Definition c_0_60 : float := Eval vm_compute in Prim2SF 0.60%float.
Definition c_0_70 : float := Eval vm_compute in Prim2SF 0.70%float.
Definition c_0_15 : float := Eval vm_compute in Prim2SF 0.15%float.
Definition c_0_4 : float := Eval vm_compute in Prim2SF 0.4%float.
Definition c_0_5 : float := Eval vm_compute in Prim2SF 0.5%float.

Definition is_finite (f : float) : bool :=
  match f with
  | S754_zero _ | S754_finite _ _ _ => true
  | _ => false
  end.

(** [float(n)]: the nearest binary64 value; an [int] beyond the range
    raises [OverflowError]. *)
Definition of_int (n : Z) : outcome float :=
  let f := binary_normalize prec emax n 0 false in
  if is_finite f then Ret f else Raise OverflowError.

(** The exact integer as an unrounded operand (for true division). *)
Definition exact (n : Z) : float :=
  match n with
  | Z0 => S754_zero false
  | Zpos p => S754_finite false p 0
  | Zneg p => S754_finite true p 0
  end.

(** [n * c] for an [int] n and a [float] c: n is converted first. *)
Definition int_mul (n : Z) (c : float) : outcome float :=
  f <- of_int n ;; Ret (SFmul prec emax f c).

(** [a / b] for two [int]s: the correctly rounded quotient. *)
Definition truediv (a b : Z) : outcome float :=
  if b =? 0 then Raise ZeroDivisionError
  else
    let q := SFdiv prec emax (exact a) (exact b) in
    if is_finite q then Ret q else Raise OverflowError.

(** [int(f)]: truncation toward zero. *)
Definition to_int (f : float) : outcome Z :=
  match f with
  | S754_zero _ => Ret 0
  | S754_finite s m e =>
      let a := match e with
               | Zneg p => Z.shiftr (Zpos m) (Zpos p)
               | _ => Z.shiftl (Zpos m) e
               end in
      Ret (if s then - a else a)
  | S754_infinity _ => Raise OverflowError
  | S754_nan => Raise ValueError
  end.

(** [round(f)]: the nearest integer, ties to the even one. *)
Definition round (f : float) : outcome Z :=
  match f with
  | S754_zero _ => Ret 0
  | S754_finite s m e =>
      let a := match e with
               | Zneg p =>
                   let d := Z.shiftl 1 (Zpos p) in
                   let q := Zpos m / d in
                   let r := Zpos m mod d in
                   match 2 * r ?= d with
                   | Lt => q
                   | Gt => q + 1
                   | Eq => if Z.even q then q else q + 1
                   end
               | _ => Z.shiftl (Zpos m) e
               end in
      Ret (if s then - a else a)
  | S754_infinity _ => Raise OverflowError
  | S754_nan => Raise ValueError
  end.

End Float.

(** ** Strings *)

Definition is_ascii (c : pychar) : bool := (c <? 128)%N.

Definition ascii_lower (c : pychar) : pychar :=
  if ((65 <=? c) && (c <=? 90))%N then (c + 32)%N else c.

Definition startswith (s p : pystr) : bool := pystr_eqb (firstn (List.length p) s) p.

Definition endswith (s p : pystr) : bool :=
  pystr_eqb (skipn (List.length s - List.length p) s) p
  && (List.length p <=? List.length s)%nat.

(** [s.split(sep)] for a separator of one character. *)
Fixpoint split (sep : pychar) (s : pystr) : list pystr :=
  match s with
  | [] => [[]]
  | c :: s' =>
      if pychar_eqb c sep then [] :: split sep s'
      else match split sep s' with
           | w :: ws => (c :: w) :: ws
           | [] => [[c]]
           end
  end.

(** [d.get(k, default)] on a dict given by its items. *)
Fixpoint dict_get (d : list (pystr * pystr)) (k : pystr) (default : pystr) : pystr :=
  match d with
  | [] => default
  | (k', v) :: d' => if pystr_eqb k k' then v else dict_get d' k default
  end.

(** [os.path.join(a, b)] (POSIX). *)
Definition os_path_join (a b : pystr) : pystr :=
  if startswith b (py "/") then b
  else if (match a with [] => true | _ => false end) || endswith a (py "/")
       then a ++ b
       else a ++ py "/" ++ b.

(** ** NumPy arrays of [uint8] *)

(** A two-dimensional array: [shape0] rows, [shape1] columns, and the
    value at (row, column). *)
Record ndarray : Type := {
  shape0 : Z;
  shape1 : Z;
  item : Z -> Z -> Z
}.

Definition in_bounds (a : ndarray) (i j : Z) : bool :=
  (0 <=? i) && (i <? shape0 a) && (0 <=? j) && (j <? shape1 a).

Definition is_empty (a : ndarray) : bool := (shape0 a <=? 0) || (shape1 a <=? 0).

(** [value.astype(uint8)] of an integer. *)
Definition uint8 (v : Z) : Z := v mod 256.

(** [np.zeros((r, c), dtype=np.uint8)]. *)
Definition np_zeros (r c : Z) : outcome ndarray :=
  if (r <? 0) || (c <? 0) then Raise ValueError
  else Ret {| shape0 := r; shape1 := c; item := fun _ _ => 0 |}.

(** A slice bound [i] on an axis of length [n]: a negative bound counts
    from the end, and every bound is clipped to the axis. *)
Definition slice_index (n i : Z) : Z :=
  if i <? 0 then Z.max 0 (i + n) else Z.min i n.

Definition slice_len (n a b : Z) : Z :=
  Z.max 0 (slice_index n b - slice_index n a).

(** [a[y0:y1, x0:x1]]. *)
Definition getslice (a : ndarray) (y0 y1 x0 x1 : Z) : ndarray :=
  {| shape0 := slice_len (shape0 a) y0 y1;
     shape1 := slice_len (shape1 a) x0 x1;
     item := fun i j =>
       item a (slice_index (shape0 a) y0 + i) (slice_index (shape1 a) x0 + j) |}.

(** A value axis of length [vn] fits a target axis of length [n] when the
    lengths agree or the value axis has length one. *)
Definition broadcasts (vn n : Z) : bool := (vn =? n) || (vn =? 1).

(** [a[y0:y1, x0:x1] = v]: raises [ValueError] when the shape of [v]
    cannot be broadcast to the shape of the slice. *)
Definition setslice (a : ndarray) (y0 y1 x0 x1 : Z) (v : ndarray) : outcome ndarray :=
  let r0 := slice_index (shape0 a) y0 in
  let nr := slice_len (shape0 a) y0 y1 in
  let c0 := slice_index (shape1 a) x0 in
  let nc := slice_len (shape1 a) x0 x1 in
  if broadcasts (shape0 v) nr && broadcasts (shape1 v) nc then
    Ret {| shape0 := shape0 a;
           shape1 := shape1 a;
           item := fun i j =>
             if (r0 <=? i) && (i <? r0 + nr) && (c0 <=? j) && (j <? c0 + nc)
             then item v (if shape0 v =? 1 then 0 else i - r0)
                         (if shape1 v =? 1 then 0 else j - c0)
             else item a i j |}
  else Raise ValueError.

(** ** OpenCV *)

(** A contour is its list of points (x, y). *)
Definition point : Type := Z * Z.
Definition contour : Type := list point.

(** What the platform computes from pixels and files, and the random
    generator. *)
Class Platform : Type := {
  (** a decoded colour image *)
  raw_image : Type;
  (** [cv2.cvtColor(img, cv2.COLOR_BGR2GRAY)] *)
  cvtColor_BGR2GRAY : raw_image -> ndarray;
  (** the level that [cv2.THRESH_OTSU] selects for an image *)
  otsu_level : ndarray -> Z;
  (** [cv2.findContours(img, cv2.RETR_EXTERNAL, cv2.CHAIN_APPROX_SIMPLE)] *)
  findContours : ndarray -> list contour;
  (** the value [cv2.INTER_AREA] gives the pixel (row, column) of an image
      resized to the given width and height *)
  inter_area : ndarray -> Z -> Z -> Z -> Z -> Z;
  (** [str.lower] on a string with a code point outside ASCII *)
  unicode_lower : pystr -> pystr;
  (** the state of the global random generator and the draw of an
      integer below a bound *)
  rng : Type;
  randbelow : rng -> Z -> Z * rng
}.

(** [cv2.threshold(src, thresh, maxval, cv2.THRESH_BINARY)]. *)
Definition threshold_binary (src : ndarray) (thresh maxval : Z) : ndarray :=
  {| shape0 := shape0 src;
     shape1 := shape1 src;
     item := fun i j => if item src i j >? thresh then maxval else 0 |}.

(** [cv2.threshold(src, thresh, maxval, cv2.THRESH_BINARY_INV)]. *)
Definition threshold_binary_inv (src : ndarray) (thresh maxval : Z) : ndarray :=
  {| shape0 := shape0 src;
     shape1 := shape1 src;
     item := fun i j => if item src i j >? thresh then 0 else maxval |}.

(** Twice the value of [cv2.contourArea(cnt)]: the area of the polygon
    through the points, by Green's formula, is a multiple of one half. *)
Fixpoint green_sum (prev : point) (c : contour) : Z :=
  match c with
  | [] => 0
  | p :: c' => fst prev * snd p - snd prev * fst p + green_sum p c'
  end.

Definition contourArea_twice (c : contour) : Z :=
  match c with
  | [] => 0
  | p :: _ => Z.abs (green_sum (last c p) c)
  end.

(** [cv2.boundingRect(points)]: (x, y, w, h) of the smallest upright
    rectangle that holds every point. *)
Definition boundingRect (pts : list point) : Z * Z * Z * Z :=
  match pts with
  | [] => (0, 0, 0, 0)
  | p :: ps =>
      let xmin := fold_left Z.min (map fst ps) (fst p) in
      let xmax := fold_left Z.max (map fst ps) (fst p) in
      let ymin := fold_left Z.min (map snd ps) (snd p) in
      let ymax := fold_left Z.max (map snd ps) (snd p) in
      (xmin, ymin, xmax - xmin + 1, ymax - ymin + 1)
  end.

(** [cv2.copyMakeBorder(src, top, bottom, left, right,
    cv2.BORDER_CONSTANT, value=value)]. *)
Definition copyMakeBorder (src : ndarray) (top bottom left right value : Z) : ndarray :=
  {| shape0 := shape0 src + top + bottom;
     shape1 := shape1 src + left + right;
     item := fun i j =>
       if in_bounds src (i - top) (j - left) then item src (i - top) (j - left)
       else value |}.

(** [cv2.resize(src, (w, h), interpolation=cv2.INTER_AREA)]: the result
    has [h] rows and [w] columns; an empty source or target is an error. *)
Definition resize `{Platform} (src : ndarray) (w h : Z) : outcome ndarray :=
  if is_empty src || (w <=? 0) || (h <=? 0) then Raise cv2_error
  else Ret {| shape0 := h; shape1 := w; item := inter_area src w h |}.

(** One pass of [cv2.dilate] with the 2x2 kernel of ones: the anchor is
    the kernel's centre (1, 1), so a pixel takes the maximum of itself
    and its neighbours above and to the left; pixels beyond the border
    do not count. *)
Definition dilate_2x2 (src : ndarray) : ndarray :=
  let px i j := if in_bounds src i j then item src i j else 0 in
  {| shape0 := shape0 src;
     shape1 := shape1 src;
     item := fun i j =>
       Z.max (Z.max (px (i - 1) (j - 1)) (px (i - 1) j))
             (Z.max (px i (j - 1)) (px i j)) |}.

(** [cv2.dilate(src, np.ones((2, 2)), iterations=n)]. *)
Definition dilate (src : ndarray) (iterations : nat) : ndarray :=
  Nat.iter iterations dilate_2x2 src.

(** ** PIL images *)

(** An RGBA image: its size and the pixel at (x, y). *)
Record Image : Type := {
  width : Z;
  height : Z;
  getpixel : Z -> Z -> Z * Z * Z * Z
}.

(** ** The engine *)

(** [NormalizedHandwritingEngine]: the attributes set by [__init__]. *)
Record Engine : Type := {
  base_path : pystr;
  ink_color : Z * Z * Z;
  std_size : Z;
  line_height : Z;
  char_spacing : Z
}.

(** [__init__(self, base_path, ink_color)]. *)
Definition init (base_path : pystr) (ink_color : Z * Z * Z) : Engine :=
  {| base_path := base_path;
     ink_color := ink_color;
     std_size := 50;
     line_height := 65;
     char_spacing := 2 |}.

(** The engine of the default arguments. *)
Definition default_engine : Engine := init (py "my_letters") (20, 24, 82).

(** The files the engine reads. *)
Record World `{Platform} : Type := {
  (** [os.path.isdir(path)] *)
  isdir : pystr -> bool;
  (** [os.listdir(path)] *)
  listdir : pystr -> list pystr;
  (** [cv2.imread(path)]: [None] when the file cannot be read *)
  imread : pystr -> option raw_image
}.

(** [s.lower()]. *)
Definition lower `{Platform} (s : pystr) : pystr :=
  if forallb is_ascii s then map ascii_lower s else unicode_lower s.

(** [int(n * c)]. *)
Definition int_times (n : Z) (c : Float.float) : outcome Z :=
  f <- Float.int_mul n c ;; Float.to_int f.

(** The character groups of [process_letter_contour]. *)
Definition double_quote : pystr := [ord "034"%char].
Definition small_punct : list pystr :=
  [py "."; py ","; py "'"; double_quote; py "`"; py "-"].
Definition tall_letters : list pystr :=
  [py "f"; py "t"; py "b"; py "d"; py "h"; py "k"; py "l"].
Definition descenders : list pystr :=
  [py "g"; py "j"; py "p"; py "q"; py "y"].
Definition short_letters : list pystr :=
  [py "a"; py "c"; py "e"; py "i"; py "m"; py "n"; py "o"; py "r"; py "s";
   py "u"; py "v"; py "w"; py "x"; py "z"].

(** Lines 27-28: the contours kept for the bounding box. *)
Definition select_contours (contours : list contour) : list contour :=
  let valid_contours :=
    filter (fun cnt => contourArea_twice cnt >? 2 * 10) contours in
  match valid_contours with
  | [] => contours
  | _ :: _ => valid_contours
  end.

(** Lines 62-73: [target_height]. *)
Definition target_height (e : Engine) (char_type : pystr) : outcome Z :=
  let safe_zone := std_size e - 4 in
  if mem char_type small_punct then int_times safe_zone Float.c_0_20
  else if mem char_type tall_letters then int_times safe_zone Float.c_0_65
  else if mem char_type descenders then int_times safe_zone Float.c_0_65
  else if mem char_type short_letters then int_times safe_zone Float.c_0_35
  else int_times safe_zone Float.c_0_60.

(** Line 86: [baseline_y]. *)
Definition baseline (e : Engine) : outcome Z :=
  int_times (std_size e) Float.c_0_70.

(** Lines 88-104: [start_y] before the clamp. *)
Definition placement (e : Engine) (char_type : pystr) (baseline_y new_h : Z)
  : outcome Z :=
  let safe_zone := std_size e - 4 in
  if mem char_type [py "."; py ","] then Ret (baseline_y - new_h)
  else if mem char_type [py "'"; double_quote; py "`"] then
    int_times (std_size e) Float.c_0_15
  else if mem char_type descenders then
    short_letter_height <- int_times safe_zone Float.c_0_35 ;;
    let x_height_top := baseline_y - short_letter_height in
    Ret x_height_top
  else Ret (baseline_y - new_h).

(** Lines 107-108: the clamp. *)
Definition clamp (e : Engine) (start_y new_h : Z) : Z :=
  let start_y := if start_y <? 0 then 0 else start_y in
  if start_y + new_h >? std_size e then std_size e - new_h else start_y.

(** Lines 117-121: the RGBA array of [std_size] rows and [new_w] columns,
    its colour channels filled with the ink colour and its alpha channel
    with the mask, as a PIL image.  The ink colour is an RGB triple; a
    component outside 0..255 is stored modulo 256 here, as NumPy 1 does,
    where NumPy 2 raises [OverflowError] at line 118: the properties that
    conclude a glyph ask for an RGB triple, for which the two agree. *)
Definition colorize (e : Engine) (new_w : Z) (norm_canvas : ndarray) : Image :=
  {| width := new_w;
     height := std_size e;
     getpixel := fun x y =>
       let '(r, g, b) := ink_color e in
       (uint8 r, uint8 g, uint8 b, item norm_canvas y x) |}.

(** The local variables of one run of [process_letter_contour] that
    reaches its last line. *)
Record locals : Type := {
  l_contours : list contour;
  l_valid_contours : list contour;
  l_rect : Z * Z * Z * Z;
  l_h : Z;
  l_w : Z;
  l_char_type : pystr;
  l_target_height : Z;
  l_new_h : Z;
  l_new_w : Z;
  l_resized_shape : Z * Z;
  l_baseline_y : Z;
  l_start_y : Z
}.

(** Lines 75-77: [new_w], the target height times the aspect ratio of
    the padded crop, truncated. *)
Definition resized_width (w h new_h : Z) : outcome Z :=
  aspect <- Float.truediv w h ;;
  int_times new_h aspect.

(** Lines 30-46: the crop to the bounding box of the kept contours, with
    its border of 10 background pixels. *)
Definition padded_roi (thresh : ndarray) (valid_contours : list contour) : ndarray :=
  let all_points := List.concat valid_contours in
  let '(x, y, w, h) := boundingRect all_points in
  let letter_roi := getslice thresh y (y + h) x (x + w) in
  let roi_padding := 10 in
  copyMakeBorder letter_roi roi_padding roi_padding roi_padding roi_padding 0.

(** Lines 112-115: the ink flow. *)
Definition ink_flow (norm_canvas : ndarray) : ndarray :=
  let norm_canvas := dilate norm_canvas 2 in
  threshold_binary norm_canvas 127 255.

Section Normalizer.
Context `{Platform}.
Variable fs : World.
Variable e : Engine.

(** Lines 21-22: the inverted Otsu binarisation of the grey image. *)
Definition binarize (img : raw_image) : ndarray :=
  let gray := cvtColor_BGR2GRAY img in
  threshold_binary_inv gray (otsu_level gray) 255.

(** [process_letter_contour(self, image_path, char_ref)], returning its
    local variables next to the image. *)
Definition process_letter_contour_trace (image_path char_ref : pystr)
  : outcome (option (locals * Image)) :=
  match imread fs image_path with
  | None => Ret None
  | Some img =>
      let thresh := binarize img in
      let contours := findContours thresh in
      match contours with
      | [] => Ret None
      | _ :: _ =>
          let valid_contours := select_contours contours in
          let letter_roi := padded_roi thresh valid_contours in
          let h := shape0 letter_roi in
          let w := shape1 letter_roi in
          let char_type := lower char_ref in
          target_height <- target_height e char_type ;;
          let new_h := target_height in
          new_w <- resized_width w h new_h ;;
          resized <- resize letter_roi new_w new_h ;;
          norm_canvas <- np_zeros (std_size e) new_w ;;
          baseline_y <- baseline e ;;
          start_y <- placement e char_type baseline_y new_h ;;
          let start_y := clamp e start_y new_h in
          norm_canvas <- setslice norm_canvas start_y (start_y + new_h) 0 new_w
                                  resized ;;
          let norm_canvas := ink_flow norm_canvas in
          Ret (Some ({| l_contours := contours;
                        l_valid_contours := valid_contours;
                        l_rect := boundingRect (List.concat valid_contours);
                        l_h := h;
                        l_w := w;
                        l_char_type := char_type;
                        l_target_height := target_height;
                        l_new_h := new_h;
                        l_new_w := new_w;
                        l_resized_shape := (shape0 resized, shape1 resized);
                        l_baseline_y := baseline_y;
                        l_start_y := start_y |},
                     colorize e new_w norm_canvas))
      end
  end.

End Normalizer.

(** ** Code that draws random numbers *)

(** A computation over the state of the global random generator. *)
Definition M `{Platform} (A : Type) : Type := rng -> outcome (A * rng).

Definition mret `{Platform} {A} (a : A) : M A := fun s => Ret (a, s).

Definition mbind `{Platform} {A B} (m : M A) (k : A -> M B) : M B :=
  fun s =>
    match m s with
    | Ret (a, s') => k a s'
    | Raise x => Raise x
    end.

(** A call that does not touch the generator. *)
Definition lift `{Platform} {A} (o : outcome A) : M A :=
  fun s =>
    match o with
    | Ret a => Ret (a, s)
    | Raise x => Raise x
    end.

Notation "x <~ m ;; k" := (mbind m (fun x => k))
  (at level 61, m at next level, right associativity) : py_scope.
Notation "' p <~ m ;; k" := (mbind m (fun x => match x with p => k end))
  (at level 61, p pattern, m at next level, right associativity) : py_scope.

(** [random.choice(seq)] on a sequence with first element [d]: the element
    at the index drawn below [len(seq)]. *)
Definition random_choice `{Platform} {A} (seq : list A) (d : A) : M A :=
  fun s =>
    let n := Z.of_nat (List.length seq) in
    let '(k, s') := randbelow s n in
    Ret (nth (Z.to_nat (k mod n)) seq d, s').

(** ** The page *)

(** The page under construction: its size, its background, and the
    pastes made so far, oldest first, each an image (its own alpha
    channel is the mask) and the position of its top left corner. *)
Record Canvas : Type := {
  canvas_size : Z * Z;
  canvas_fill : Z * Z * Z * Z;
  pastes : list (Image * (Z * Z))
}.

(** [Image.new('RGBA', size, color)]. *)
Definition Image_new (size : Z * Z) (color : Z * Z * Z * Z) : Canvas :=
  {| canvas_size := size; canvas_fill := color; pastes := [] |}.

(** [canvas.paste(img, box, img)]. *)
Definition paste (canvas : Canvas) (img : Image) (box : Z * Z) : Canvas :=
  {| canvas_size := canvas_size canvas;
     canvas_fill := canvas_fill canvas;
     pastes := pastes canvas ++ [(img, box)] |}.

(** The canvas and the pen. *)
Record Page : Type := {
  canvas : Canvas;
  curr_x : Z;
  curr_y : Z
}.

(** One piece of a word: the glyph, if any, and the width it takes. *)
Definition word_item : Type := option Image * Z.

Definition SPECIAL_CHAR_MAP : list (pystr * pystr) :=
  [(py ".", py "dot"); (double_quote, py "quote"); (py ":", py "colon");
   (py "?", py "question"); (py "*", py "asterisk"); (py "/", py "slash");
   ([ord "092"%char], py "backslash"); (py "<", py "lt"); (py ">", py "gt");
   (py "|", py "pipe"); (py ",", py "comma"); (py "'", py "apostrophe")].

Definition image_suffixes : list pystr := [py ".png"; py ".jpg"; py ".jpeg"].

Definition start_x : Z := 200.
Definition max_x : Z := 2200.

Section Composer.
Context `{Platform}.
Variable fs : World.
Variable e : Engine.

(** [process_letter_contour(self, image_path, char_ref)]. *)
Definition process_letter_contour (image_path char_ref : pystr)
  : M (option Image) :=
  lift (r <- process_letter_contour_trace fs e image_path char_ref ;;
        Ret (option_map snd r)).

(** Line 156-157: the folder of a character. *)
Definition char_dir_of (char : pychar) : pystr :=
  let folder_name := dict_get SPECIAL_CHAR_MAP [char] (lower [char]) in
  os_path_join (base_path e) folder_name.

(** Line 162: the image files of a folder. *)
Definition variants_of (char_dir : pystr) : list pystr :=
  filter (fun f => existsb (endswith (lower f)) image_suffixes)
         (listdir fs char_dir).

(** Lines 156-180: the item of one character. *)
Definition char_item (fallback_width : Z) (char : pychar) : M word_item :=
  let char_dir := char_dir_of char in
  if isdir fs char_dir then
    let variants := variants_of char_dir in
    match variants with
    | v0 :: _ =>
        v <~ random_choice variants v0 ;;
        img <~ process_letter_contour (os_path_join char_dir v) [char] ;;
        match img with
        | Some g => mret (Some g, width g + char_spacing e)
        | None => mret (None, fallback_width)
        end
    | [] => mret (None, fallback_width)
    end
  else mret (None, fallback_width).

(** Lines 152-180: the items of a word and their total width. *)
Fixpoint scan_word (fallback_width : Z) (word : pystr)
                   (word_items : list word_item) (word_total_width : Z)
  : M (list word_item * Z) :=
  match word with
  | [] => mret (word_items, word_total_width)
  | char :: rest =>
      it <~ char_item fallback_width char ;;
      scan_word fallback_width rest (word_items ++ [it])
                (word_total_width + snd it)
  end.

(** Lines 183-185: the wrap. *)
Definition wrap (pg : Page) (word_total_width : Z) : Page :=
  if curr_x pg + word_total_width >? max_x then
    {| canvas := canvas pg;
       curr_x := start_x;
       curr_y := curr_y pg + line_height e |}
  else pg.

(** Lines 189-196: one item drawn. *)
Definition draw_item (pg : Page) (it : word_item) : Page :=
  let '(img, width) := it in
  {| canvas := match img with
               | Some g => paste (canvas pg) g (curr_x pg, curr_y pg)
               | None => canvas pg
               end;
     curr_x := curr_x pg + width;
     curr_y := curr_y pg |}.

(** Lines 183-198: a word placed. *)
Definition draw_word (pixels_per_space : Z) (pg : Page)
                     (word_items : list word_item) (word_total_width : Z)
  : Page :=
  let pg := wrap pg word_total_width in
  let pg := fold_left draw_item word_items pg in
  {| canvas := canvas pg;
     curr_x := curr_x pg + pixels_per_space;
     curr_y := curr_y pg |}.

(** Lines 149-198: the body of the loop over words. *)
Definition do_word (pixels_per_space fallback_width : Z) (pg : Page)
                   (word : pystr) : M Page :=
  ' (word_items, word_total_width) <~ scan_word fallback_width word [] 0 ;;
  mret (draw_word pixels_per_space pg word_items word_total_width).

Fixpoint do_words (pixels_per_space fallback_width : Z) (words : list pystr)
                  (pg : Page) : M Page :=
  match words with
  | [] => mret pg
  | word :: rest =>
      pg <~ do_word pixels_per_space fallback_width pg word ;;
      do_words pixels_per_space fallback_width rest pg
  end.

(** Lines 146-201: the loop over lines. *)
Fixpoint do_lines (pixels_per_space fallback_width : Z) (lines : list pystr)
                  (pg : Page) : M Page :=
  match lines with
  | [] => mret pg
  | line :: rest =>
      let words := split (ord " ") line in
      pg <~ do_words pixels_per_space fallback_width words pg ;;
      do_lines pixels_per_space fallback_width rest
               {| canvas := canvas pg;
                  curr_x := start_x;
                  curr_y := curr_y pg + line_height e |}
  end.

(** [generate(self, text, output_file)] up to the page it saves. *)
Definition generate (text : pystr) : M Canvas :=
  let blank := Image_new (2480, 3508) (255, 255, 255, 255) in
  pixels_per_space <~ lift (int_times (std_size e) Float.c_0_4) ;;
  fallback_width <~ lift (int_times (std_size e) Float.c_0_5) ;;
  let lines := split (ord "010"%char) text in
  pg <~ do_lines pixels_per_space fallback_width lines
                 {| canvas := blank; curr_x := start_x; curr_y := 200 |} ;;
  mret (canvas pg).

End Composer.

(** ** A small platform and sample store

    One instance of [Platform] and [World], on which the runs quoted
    below are evaluated: a sample is a grey picture, the threshold level
    is mid-grey, resizing takes the nearest source pixel, the contour
    tracer reports the outlines written out for the sample, and the
    random generator counts its draws. *)

Module Fixture.

(** A 20x30 sample: white paper with an inked block of 10x20 pixels whose
    top left corner is at (5, 5). *)
Definition sample : ndarray :=
  {| shape0 := 30;
     shape1 := 20;
     item := fun i j =>
       if (5 <=? i) && (i <? 25) && (5 <=? j) && (j <? 15) then 0 else 255 |}.

(** The outline of the block of [sample]. *)
Definition block : contour := [(5, 5); (5, 24); (14, 24); (14, 5)].

(** The outline of a speck of 6x3 pixels: its area is 5 * 2 = 10. *)
Definition speck : contour := [(1, 1); (1, 3); (6, 3); (6, 1)].

Definition nearest (src : ndarray) (w h i j : Z) : Z :=
  item src (i * shape0 src / h) (j * shape1 src / w).

(** The platform whose tracer reports [outlines] on every picture. *)
Definition platform (outlines : list contour) : Platform :=
  {| raw_image := ndarray;
     cvtColor_BGR2GRAY := fun img => img;
     otsu_level := fun _ => 127;
     findContours := fun _ => outlines;
     inter_area := nearest;
     unicode_lower := fun s => s;
     rng := nat;
     randbelow := fun s _ => (Z.of_nat s, S s) |}.

(** A store with the folders [my_letters/a], [my_letters/t],
    [my_letters/y] (one readable sample each), [my_letters/b] (a file
    that does not decode) and [my_letters/c] (no image file). *)
Definition world (outlines : list contour) : @World (platform outlines) :=
  @Build_World (platform outlines)
    (fun p =>
       mem p [py "my_letters/a"; py "my_letters/t"; py "my_letters/y";
              py "my_letters/b"; py "my_letters/c"])
    (fun p =>
       if pystr_eqb p (py "my_letters/c") then [py "notes.txt"]
       else [py "1.PNG"])
    (fun p =>
       if pystr_eqb p (py "my_letters/b/1.PNG") then None else Some sample).

Definition run (outlines : list contour) (e : Engine) (image_path char_ref : pystr)
  : outcome (option (locals * Image)) :=
  @process_letter_contour_trace (platform outlines) (world outlines) e
                                image_path char_ref.

End Fixture.

(** ** Definitions used to state the properties *)

(** The height as the specification words it: the class ratio times
    [std_size - 4], rounded to the nearest integer. *)
Definition rounded_height (e : Engine) (char_type : pystr) : outcome Z :=
  let safe_zone := std_size e - 4 in
  let ratio :=
    if mem char_type small_punct then Float.c_0_20
    else if mem char_type tall_letters then Float.c_0_65
    else if mem char_type descenders then Float.c_0_65
    else if mem char_type short_letters then Float.c_0_35
    else Float.c_0_60 in
  f <- Float.int_mul safe_zone ratio ;; Float.round f.

(** The local variables of a run, without the image. *)
Definition locals_of (r : outcome (option (locals * Image)))
  : outcome (option locals) :=
  x <- r ;; Ret (option_map fst x).

(** The sum of the widths of the items of a word. *)
Definition total_width (items : list word_item) : Z :=
  fold_right (fun it acc => snd it + acc) 0 items.

(** The pastes of the items of a word laid out from [x] on the line [y]. *)
Fixpoint placed (x y : Z) (items : list word_item) : list (Image * (Z * Z)) :=
  match items with
  | [] => []
  | (Some g, w) :: rest => (g, (x, y)) :: placed (x + w) y rest
  | (None, w) :: rest => placed (x + w) y rest
  end.

(** An RGB triple: three values of one byte each. *)
Definition rgb_triple (c : Z * Z * Z) : Prop :=
  let '(r, g, b) := c in
  0 <= r <= 255 /\ 0 <= g <= 255 /\ 0 <= b <= 255.

(** [f] holds on the [2^k] integers from [lo]. *)
Fixpoint all_range (k : nat) (lo : Z) (f : Z -> bool) : bool :=
  match k with
  | O => f lo
  | S k' => all_range k' lo f && all_range k' (lo + 2 ^ Z.of_nat k') f
  end.

(** For a glyph height [s]: whenever the short and the descender target
    heights are positive, the clamp leaves the offset
    [baseline_y - short height] as it is, for a glyph of either height. *)
Definition alignment_check (s : Z) : bool :=
  let e := {| base_path := []; ink_color := (0, 0, 0); std_size := s;
              line_height := 0; char_spacing := 0 |} in
  match int_times (s - 4) Float.c_0_35,
        int_times (s - 4) Float.c_0_65,
        baseline e with
  | Ret hs, Ret hd, Ret b =>
      if (1 <=? hs) && (1 <=? hd) then
        (clamp e (b - hs) hd =? b - hs) && (clamp e (b - hs) hs =? b - hs)
      else true
  | _, _, _ => true
  end.

(** The height of the resized glyph as the specification states it, for
    one run. *)
Definition height_is_rounded `{Platform} (fs : World) (e : Engine)
                             (image_path char_ref : pystr) : Prop :=
  forall t img,
    process_letter_contour_trace fs e image_path char_ref = Ret (Some (t, img)) ->
    rounded_height e (l_char_type t) = Ret (fst (l_resized_shape t)).

(** The contours kept, as the specification words it: those whose area
    is below 10 are dropped, and all are kept if none is left. *)
Definition keep_not_below (contours : list contour) : list contour :=
  let kept := filter (fun cnt => negb (contourArea_twice cnt <? 2 * 10)) contours in
  match kept with
  | [] => contours
  | _ :: _ => kept
  end.

(** The contours kept by one run are those of [keep_not_below]. *)
Definition discards_below_minimum `{Platform} (fs : World) (e : Engine)
                                  (image_path char_ref : pystr) : Prop :=
  forall t img,
    process_letter_contour_trace fs e image_path char_ref = Ret (Some (t, img)) ->
    l_valid_contours t = keep_not_below (l_contours t).

(** The positions of the pastes and the pen of the page a computation
    returns. *)
Definition page_summary `{Platform} (r : outcome (Page * rng))
  : outcome (list (Z * Z) * Z * Z) :=
  ' (pg, _) <- r ;; Ret (map snd (pastes (canvas pg)), curr_x pg, curr_y pg).

(** The words of a text, line by line. *)
Definition words_of (text : pystr) : list pystr :=
  flat_map (split (ord " ")) (split (ord "010"%char) text).

(** Pastes that all lie on one line. *)
Definition one_line (g : list (Image * (Z * Z))) : Prop :=
  exists y, Forall (fun p => snd (snd p) = y) g.

(** A character for which no sample is usable, in the state [s] of the
    random generator: its folder is missing, holds no image file, or the
    sample drawn from it gives no glyph. *)
Inductive unavailable `{Platform} (fs : World) (e : Engine) (char : pychar)
                      (s : rng) : Prop :=
| collection_missing :
    isdir fs (char_dir_of e char) = false ->
    unavailable fs e char s
| collection_empty :
    variants_of fs (char_dir_of e char) = [] ->
    unavailable fs e char s
| normalization_failed (v0 : pystr) (vs : list pystr) (v : pystr) (s1 : rng) :
    isdir fs (char_dir_of e char) = true ->
    variants_of fs (char_dir_of e char) = v0 :: vs ->
    random_choice (v0 :: vs) v0 s = Ret (v, s1) ->
    process_letter_contour fs e (os_path_join (char_dir_of e char) v) [char] s1
    = Ret (None, s1) ->
    unavailable fs e char s.

(** For a glyph height [s]: the products of lines 62-97 are finite, and
    the glyph of every class, when it has at least one row, lies inside
    the canvas at the offset computed before the clamp. *)
Definition placement_check (s : Z) : bool :=
  let fits (new_h start_y : Z) :=
    (new_h <? 1) || ((0 <=? start_y) && (start_y + new_h <=? s)) in
  match int_times (s - 4) Float.c_0_20, int_times (s - 4) Float.c_0_65,
        int_times (s - 4) Float.c_0_35, int_times (s - 4) Float.c_0_60,
        int_times s Float.c_0_70, int_times s Float.c_0_15 with
  | Ret h20, Ret h65, Ret h35, Ret h60, Ret b, Ret q =>
      fits h20 (b - h20) && fits h20 q && fits h65 (b - h65)
      && fits h65 (b - h35) && fits h35 (b - h35) && fits h60 (b - h60)
  | _, _, _, _, _, _ => false
  end.

(** A store with one sample of a thin vertical stroke, 300 pixels high,
    for the full stop. *)
Module ThinStroke.

Definition sample : ndarray :=
  {| shape0 := 300;
     shape1 := 5;
     item := fun i j => if j =? 2 then 0 else 255 |}.

(** The outline of the stroke: a segment, of area 0. *)
Definition stroke : contour := [(2, 0); (2, 299)].

Definition platform : Platform := Fixture.platform [stroke].

Definition world : @World platform :=
  @Build_World platform
    (fun p => pystr_eqb p (py "my_letters/dot"))
    (fun _ => [py "1.png"])
    (fun _ => Some sample).

End ThinStroke.

(** The alpha value of the pixel (x, y) of an image. *)
Definition alpha_at (img : Image) (x y : Z) : Z :=
  let '(_, _, _, a) := getpixel img x y in a.

(** The folder name of an ASCII character holds no path separator and is
    not empty. *)
Definition folder_check (c : pychar) : bool :=
  let folder_name := dict_get SPECIAL_CHAR_MAP [c] (map ascii_lower [c]) in
  negb (existsb (N.eqb 47) folder_name)
  && match folder_name with [] => false | _ :: _ => true end.

(** A character that ends a word or a line. *)
Definition is_separator (c : pychar) : bool :=
  pychar_eqb c (ord " ") || pychar_eqb c (ord "010"%char).

(** A paste at or right of the left margin, on one of the text lines
    [200 + k * line_height]. *)
Definition on_text_line (e : Engine) (p : Image * (Z * Z)) : Prop :=
  start_x <= fst (snd p) /\
  exists k, 0 <= k /\ snd (snd p) = 200 + k * line_height e.

(** Every row is at or above the rows after it. *)
Fixpoint rows_descend (ys : list Z) : Prop :=
  match ys with
  | [] => True
  | y :: rest => Forall (fun z => y <= z) rest /\ rows_descend rest
  end.

(** The pen and the pastes of a page in the making: the pen is at or
    right of the left margin and on a text line; every paste is on a text
    line at or above the pen, and the pastes go down the page. *)
Definition page_ok (e : Engine) (pg : Page) : Prop :=
  start_x <= curr_x pg /\
  (exists k, 0 <= k /\ curr_y pg = 200 + k * line_height e) /\
  Forall (on_text_line e) (pastes (canvas pg)) /\
  Forall (fun p => snd (snd p) <= curr_y pg) (pastes (canvas pg)) /\
  rows_descend (map (fun p => snd (snd p)) (pastes (canvas pg))).

(** The positions of the pastes of the page a computation returns. *)
Definition positions_of `{Platform} (r : outcome (Canvas * rng))
  : outcome (list (Z * Z)) :=
  ' (page, _) <- r ;; Ret (map snd (pastes page)).

(** ** A wide crop *)

Module WideBlock.

(** A 60x20 sample: white paper with an inked bar of 41x7 pixels whose
    top left corner is at (5, 5). *)
Definition sample : ndarray :=
  {| shape0 := 20;
     shape1 := 60;
     item := fun i j =>
       if (5 <=? i) && (i <? 12) && (5 <=? j) && (j <? 46) then 0 else 255 |}.

(** The outline of the bar of [sample]. *)
Definition bar : contour := [(5, 5); (5, 11); (45, 11); (45, 5)].

Definition platform : Platform := Fixture.platform [bar].

(** A store in which every image file decodes to [sample]. *)
Definition world : @World platform :=
  @Build_World platform (fun _ => true) (fun _ => [py "1.PNG"])
               (fun _ => Some sample).

Definition run (e : Engine) (image_path char_ref : pystr)
  : outcome (option (locals * Image)) :=
  @process_letter_contour_trace platform world e image_path char_ref.

End WideBlock.

(** The width as the specification words it: [new_h] times [w / h],
    truncated to an integer, for the width [w] and the height [h] of the
    padded crop. *)
Definition exact_width (new_h w h : Z) : Z := Z.quot (new_h * w) h.

(** The glyph of a run is as wide as the exact quotient says. *)
Definition width_is_exact_quotient `{Platform} (fs : World) (e : Engine)
    (image_path char_ref : pystr) : Prop :=
  forall t img,
    process_letter_contour_trace fs e image_path char_ref = Ret (Some (t, img)) ->
    width img = exact_width (l_new_h t) (l_w t) (l_h t).

(** ** The normaliser over the state of the interpreter *)

(** The interpreter as [process_letter_contour] meets it: a global state
    (the random generator, the files, whatever OpenCV and NumPy keep
    between two calls) and the library calls of the function, each of
    which may read that state and change it. *)
Class Runtime : Type := {
  state : Type;
  picture : Type;
  (** [cv2.imread(path)] *)
  call_imread : pystr -> state -> option picture * state;
  (** [cv2.cvtColor(img, cv2.COLOR_BGR2GRAY)] *)
  call_cvtColor_BGR2GRAY : picture -> state -> ndarray * state;
  (** the level chosen by [cv2.threshold(..., cv2.THRESH_OTSU)] *)
  call_otsu_level : ndarray -> state -> Z * state;
  (** [cv2.findContours(thresh, cv2.RETR_EXTERNAL, cv2.CHAIN_APPROX_SIMPLE)] *)
  call_findContours : ndarray -> state -> list contour * state;
  (** the pixels of [cv2.resize(src, (w, h), interpolation=cv2.INTER_AREA)] *)
  call_inter_area : ndarray -> Z -> Z -> state -> (Z -> Z -> Z) * state;
  (** [s.lower()] outside ASCII *)
  call_unicode_lower : pystr -> state -> pystr * state;
  (** a draw of the random generator below a bound *)
  call_randbelow : Z -> state -> Z * state
}.

(** A computation that reads and changes the state and may raise. *)
Definition Stateful `{Runtime} (A : Type) : Type := state -> outcome A * state.

Definition sret `{Runtime} {A} (a : A) : Stateful A := fun s => (Ret a, s).

Definition sbind `{Runtime} {A B} (m : Stateful A) (k : A -> Stateful B)
  : Stateful B :=
  fun s =>
    match m s with
    | (Ret a, s') => k a s'
    | (Raise x, s') => (Raise x, s')
    end.

(** A library call. *)
Definition call `{Runtime} {A} (f : state -> A * state) : Stateful A :=
  fun s => let '(a, s') := f s in (Ret a, s').

(** A step that does not touch the state. *)
Definition pure `{Runtime} {A} (o : outcome A) : Stateful A := fun s => (o, s).

Notation "x <<- m ;; k" := (sbind m (fun x => k))
  (at level 61, m at next level, right associativity) : py_scope.

Section StatefulNormalizer.
Context `{Runtime}.
Variable e : Engine.

(** [s.lower()]. *)
Definition lower_stateful (s : pystr) : Stateful pystr :=
  if forallb is_ascii s then sret (map ascii_lower s)
  else call (call_unicode_lower s).

(** [cv2.resize(src, (w, h), interpolation=cv2.INTER_AREA)]. *)
Definition resize_stateful (src : ndarray) (w h : Z) : Stateful ndarray :=
  if is_empty src || (w <=? 0) || (h <=? 0) then pure (Raise cv2_error)
  else
    pixels <<- call (call_inter_area src w h) ;;
    sret {| shape0 := h; shape1 := w; item := pixels |}.

(** [process_letter_contour(self, image_path, char_ref)], every library
    call made in the state the calls before it left. *)
Definition process_letter_contour_stateful (image_path char_ref : pystr)
  : Stateful (option Image) :=
  img <<- call (call_imread image_path) ;;
  match img with
  | None => sret None
  | Some img =>
      gray <<- call (call_cvtColor_BGR2GRAY img) ;;
      level <<- call (call_otsu_level gray) ;;
      let thresh := threshold_binary_inv gray level 255 in
      contours <<- call (call_findContours thresh) ;;
      match contours with
      | [] => sret None
      | _ :: _ =>
          let valid_contours := select_contours contours in
          let letter_roi := padded_roi thresh valid_contours in
          let h := shape0 letter_roi in
          let w := shape1 letter_roi in
          char_type <<- lower_stateful char_ref ;;
          target_height <<- pure (target_height e char_type) ;;
          let new_h := target_height in
          new_w <<- pure (resized_width w h new_h) ;;
          resized <<- resize_stateful letter_roi new_w new_h ;;
          norm_canvas <<- pure (np_zeros (std_size e) new_w) ;;
          baseline_y <<- pure (baseline e) ;;
          start_y <<- pure (placement e char_type baseline_y new_h) ;;
          let start_y := clamp e start_y new_h in
          norm_canvas <<- pure (setslice norm_canvas start_y (start_y + new_h)
                                         0 new_w resized) ;;
          let norm_canvas := ink_flow norm_canvas in
          sret (Some (colorize e new_w norm_canvas))
      end
  end.

(** [random.choice(seq)] on a sequence with first element [d]. *)
Definition random_choice_stateful {A} (seq : list A) (d : A) : Stateful A :=
  let n := Z.of_nat (List.length seq) in
  k <<- call (call_randbelow n) ;;
  sret (nth (Z.to_nat (k mod n)) seq d).

End StatefulNormalizer.

(** The library whose calls answer as the functions given, in every
    state. *)
Definition platform_of `{Runtime}
    (cvtColor : picture -> ndarray) (otsu : ndarray -> Z)
    (contours : ndarray -> list contour)
    (area : ndarray -> Z -> Z -> Z -> Z -> Z)
    (ulower : pystr -> pystr) : Platform :=
  {| raw_image := picture;
     cvtColor_BGR2GRAY := cvtColor;
     otsu_level := otsu;
     findContours := contours;
     inter_area := area;
     unicode_lower := ulower;
     rng := state;
     randbelow := fun s n => call_randbelow n s |}.

(** The store in which the file read decodes to [sample]. *)
Definition store_of (P : Platform) (sample : option raw_image) : World :=
  @Build_World P (fun _ => false) (fun _ => []) (fun _ => sample).

(** What [process_letter_contour] returns: the image of the trace. *)
Definition returned (r : outcome (option (locals * Image)))
  : outcome (option Image) :=
  x <- r ;; Ret (option_map snd x).

Module Counter.

(** A runtime whose state is a counter that every draw of the random
    generator advances, and whose other calls are those of
    [Fixture.platform]. *)
Definition runtime (outlines : list contour) : Runtime :=
  {| state := nat;
     picture := ndarray;
     call_imread := fun _ s => (Some Fixture.sample, s);
     call_cvtColor_BGR2GRAY := fun img s => (img, s);
     call_otsu_level := fun _ s => (127, s);
     call_findContours := fun _ s => (outlines, s);
     call_inter_area := fun src w h s => (Fixture.nearest src w h, s);
     call_unicode_lower := fun str s => (str, s);
     call_randbelow := fun _ s => (Z.of_nat s, S s) |}.

End Counter.

(** * Properties *)

(** ** Strings and results *)

Lemma pystr_eqb_eq (a b : pystr) : pystr_eqb a b = true <-> a = b.
Proof.
  revert b. induction a as [|x a IH]; intros [|y b]; simpl; split;
    try discriminate; try reflexivity.
  - intros Hb. apply andb_true_iff in Hb. destruct Hb as [Hx Ha].
    apply N.eqb_eq in Hx. apply IH in Ha. now subst.
  - intros Hb. injection Hb as -> ->. apply andb_true_iff. split.
    + apply N.eqb_refl.
    + now apply IH.
Qed.

Lemma mem_In (x : pystr) (l : list pystr) : mem x l = true <-> In x l.
Proof.
  unfold mem. rewrite existsb_exists. split.
  - intros (y & Hy & Heq). apply pystr_eqb_eq in Heq. now subst.
  - intros Hin. exists x. split; [assumption|]. now apply pystr_eqb_eq.
Qed.

Lemma mem_not_In (x : pystr) (l : list pystr) : ~ In x l -> mem x l = false.
Proof.
  intros Hn. destruct (mem x l) eqn:E; [|reflexivity].
  apply mem_In in E. contradiction.
Qed.

Lemma obind_Ret {A B} (m : outcome A) (k : A -> outcome B) (b : B) :
  obind m k = Ret b -> exists a, m = Ret a /\ k a = Ret b.
Proof.
  destruct m as [a|x]; simpl; intros Hk; [|discriminate].
  now exists a.
Qed.

(** Splits a successful sequence of calls into its steps. *)
Ltac bind_inv H x E :=
  apply obind_Ret in H; destruct H as (x & E & H).

Lemma run_of_locals (r : outcome (option (locals * Image))) (t : locals) :
  locals_of r = Ret (Some t) -> exists img, r = Ret (Some (t, img)).
Proof.
  destruct r as [[[t' img]|]|x]; simpl; try discriminate.
  intros Ht. injection Ht as <-. now exists img.
Qed.

(** Evaluates the local variables of a run [r] that returns a glyph, and
    names the run's result. *)
Ltac evaluate_run r t img E :=
  let Hl := fresh "Hl" in
  assert (Hl : exists t, locals_of r = Ret (Some t))
    by (vm_compute; eexists; reflexivity);
  destruct Hl as [t Hl];
  destruct (run_of_locals r t Hl) as [img E].

(** ** The steps of a run *)

Lemma resize_Ret `{Platform} (src : ndarray) (w h : Z) (r : ndarray) :
  resize src w h = Ret r -> 0 < w /\ 0 < h /\ shape0 r = h /\ shape1 r = w.
Proof.
  unfold resize. destruct (is_empty src); simpl; [discriminate|].
  destruct (w <=? 0) eqn:Ew; simpl; [discriminate|].
  destruct (h <=? 0) eqn:Eh; simpl; [discriminate|].
  intros Hr. injection Hr as <-. simpl. lia.
Qed.

Lemma np_zeros_Ret (r c : Z) (a : ndarray) :
  np_zeros r c = Ret a -> 0 <= r /\ 0 <= c /\ shape0 a = r /\ shape1 a = c.
Proof.
  unfold np_zeros. destruct (r <? 0) eqn:Er; simpl; [discriminate|].
  destruct (c <? 0) eqn:Ec; simpl; [discriminate|].
  intros Ha. injection Ha as <-. simpl. lia.
Qed.

Lemma setslice_Ret (a v : ndarray) (y0 y1 x0 x1 : Z) (a' : ndarray) :
  setslice a y0 y1 x0 x1 v = Ret a' ->
  broadcasts (shape0 v) (slice_len (shape0 a) y0 y1) = true /\
  broadcasts (shape1 v) (slice_len (shape1 a) x0 x1) = true /\
  shape0 a' = shape0 a /\ shape1 a' = shape1 a.
Proof.
  unfold setslice.
  destruct (broadcasts (shape0 v) _) eqn:E0; simpl; [|discriminate].
  destruct (broadcasts (shape1 v) _) eqn:E1; simpl; [|discriminate].
  intros Ha. injection Ha as <-. simpl. auto.
Qed.

Section NormalizerFacts.
Context `{Platform}.
Variable fs : World.
Variable e : Engine.

(** A run that returns an image went through every step. *)
Lemma trace_inv (image_path char_ref : pystr) (t : locals) (img : Image) :
  process_letter_contour_trace fs e image_path char_ref = Ret (Some (t, img)) ->
  exists raw resized canvas0 canvas1 start0,
    let roi := padded_roi (binarize raw) (l_valid_contours t) in
    imread fs image_path = Some raw /\
    l_contours t = findContours (binarize raw) /\
    l_contours t <> [] /\
    l_valid_contours t = select_contours (l_contours t) /\
    l_rect t = boundingRect (List.concat (l_valid_contours t)) /\
    l_h t = shape0 roi /\
    l_w t = shape1 roi /\
    l_char_type t = lower char_ref /\
    target_height e (lower char_ref) = Ret (l_target_height t) /\
    l_new_h t = l_target_height t /\
    resized_width (l_w t) (l_h t) (l_new_h t) = Ret (l_new_w t) /\
    resize roi (l_new_w t) (l_new_h t) = Ret resized /\
    l_resized_shape t = (shape0 resized, shape1 resized) /\
    np_zeros (std_size e) (l_new_w t) = Ret canvas0 /\
    baseline e = Ret (l_baseline_y t) /\
    placement e (lower char_ref) (l_baseline_y t) (l_new_h t) = Ret start0 /\
    l_start_y t = clamp e start0 (l_new_h t) /\
    setslice canvas0 (l_start_y t) (l_start_y t + l_new_h t) 0 (l_new_w t)
             resized = Ret canvas1 /\
    img = colorize e (l_new_w t) (ink_flow canvas1).
Proof.
  unfold process_letter_contour_trace.
  destruct (imread fs image_path) as [raw|] eqn:Eread; [|discriminate].
  destruct (findContours (binarize raw)) as [|c0 cs] eqn:Econt; [discriminate|].
  intros Hrun.
  bind_inv Hrun th Eth.
  bind_inv Hrun nw Enw.
  bind_inv Hrun resized Eres.
  bind_inv Hrun canvas0 Ezero.
  bind_inv Hrun by0 Ebase.
  bind_inv Hrun start0 Eplace.
  bind_inv Hrun canvas1 Eset.
  injection Hrun as <- <-. simpl.
  exists raw, resized, canvas0, canvas1, start0.
  rewrite Econt.
  repeat split; try assumption; try reflexivity.
  discriminate.
Qed.

End NormalizerFacts.

(** ** The height of the resized glyph (C1) *)

Lemma tall_not_punct (s : pystr) : In s tall_letters -> mem s small_punct = false.
Proof. intros Hs. repeat (destruct Hs as [<-|Hs]; [reflexivity|]). destruct Hs. Qed.

Lemma descender_class (s : pystr) :
  In s descenders -> mem s small_punct = false /\ mem s tall_letters = false.
Proof.
  intros Hs. repeat (destruct Hs as [<-|Hs]; [split; reflexivity|]). destruct Hs.
Qed.

Lemma short_class (s : pystr) :
  In s short_letters ->
  mem s small_punct = false /\ mem s tall_letters = false /\
  mem s descenders = false.
Proof.
  intros Hs.
  repeat (destruct Hs as [<-|Hs]; [repeat split; reflexivity|]). destruct Hs.
Qed.

Lemma target_height_small (e : Engine) (s : pystr) :
  In s small_punct ->
  target_height e s = int_times (std_size e - 4) Float.c_0_20.
Proof.
  intros Hs. unfold target_height. apply mem_In in Hs. now rewrite Hs.
Qed.

Lemma target_height_tall (e : Engine) (s : pystr) :
  In s tall_letters ->
  target_height e s = int_times (std_size e - 4) Float.c_0_65.
Proof.
  intros Hs. unfold target_height. rewrite (tall_not_punct s Hs).
  apply mem_In in Hs. now rewrite Hs.
Qed.

Lemma target_height_descender (e : Engine) (s : pystr) :
  In s descenders ->
  target_height e s = int_times (std_size e - 4) Float.c_0_65.
Proof.
  intros Hs. unfold target_height.
  destruct (descender_class s Hs) as [-> ->].
  apply mem_In in Hs. now rewrite Hs.
Qed.

Lemma target_height_short (e : Engine) (s : pystr) :
  In s short_letters ->
  target_height e s = int_times (std_size e - 4) Float.c_0_35.
Proof.
  intros Hs. unfold target_height.
  destruct (short_class s Hs) as (-> & -> & ->).
  apply mem_In in Hs. now rewrite Hs.
Qed.

Lemma target_height_default (e : Engine) (s : pystr) :
  ~ In s small_punct -> ~ In s tall_letters -> ~ In s descenders ->
  ~ In s short_letters ->
  target_height e s = int_times (std_size e - 4) Float.c_0_60.
Proof.
  intros H1 H2 H3 H4. unfold target_height.
  now rewrite !mem_not_In.
Qed.

(** C1, as the code has it: in a run that returns a glyph, the resized
    glyph has [new_h] rows, and [new_h] is the class ratio times
    [std_size - 4] truncated toward zero (not rounded): ratio 0.20 for
    small punctuation, 0.65 for tall letters, 0.65 for descenders, 0.35
    for short letters and 0.60 for every other character. *)
Theorem resized_height_truncates `{Platform} (fs : World) (e : Engine)
    (image_path char_ref : pystr) (t : locals) (img : Image) :
  process_letter_contour_trace fs e image_path char_ref = Ret (Some (t, img)) ->
  let char_type := lower char_ref in
  let safe_zone := std_size e - 4 in
  fst (l_resized_shape t) = l_new_h t /\
  (In char_type small_punct ->
     int_times safe_zone Float.c_0_20 = Ret (l_new_h t)) /\
  (In char_type tall_letters ->
     int_times safe_zone Float.c_0_65 = Ret (l_new_h t)) /\
  (In char_type descenders ->
     int_times safe_zone Float.c_0_65 = Ret (l_new_h t)) /\
  (In char_type short_letters ->
     int_times safe_zone Float.c_0_35 = Ret (l_new_h t)) /\
  (~ In char_type small_punct -> ~ In char_type tall_letters ->
   ~ In char_type descenders -> ~ In char_type short_letters ->
     int_times safe_zone Float.c_0_60 = Ret (l_new_h t)).
Proof.
  intros Hrun char_type safe_zone.
  destruct (trace_inv fs e _ _ _ _ Hrun)
    as (raw & resized & canvas0 & canvas1 & start0 & Hsteps).
  cbv zeta in Hsteps.
  destruct Hsteps as (_ & _ & _ & _ & _ & _ & _ & _ & Hth & Hnh & _ & Hres
                      & Hshape & _).
  apply resize_Ret in Hres. destruct Hres as (_ & _ & Hrows & _).
  rewrite Hshape, Hnh. simpl fst.
  split; [now rewrite Hrows, Hnh|].
  subst char_type safe_zone.
  repeat split.
  - intros Hc. now rewrite <- (target_height_small e _ Hc).
  - intros Hc. now rewrite <- (target_height_tall e _ Hc).
  - intros Hc. now rewrite <- (target_height_descender e _ Hc).
  - intros Hc. now rewrite <- (target_height_short e _ Hc).
  - intros H1 H2 H3 H4. now rewrite <- (target_height_default e _ H1 H2 H3 H4).
Qed.

(** The run of the small platform on the sample of [t], with the default
    engine. *)
Lemma resized_height_truncates_witness :
  exists t img,
    Fixture.run [Fixture.block] default_engine (py "my_letters/t/1.PNG") (py "t")
      = Ret (Some (t, img)) /\
    fst (l_resized_shape t) = l_new_h t /\
    int_times (50 - 4) Float.c_0_65 = Ret (l_new_h t).
Proof.
  evaluate_run (Fixture.run [Fixture.block] default_engine
                            (py "my_letters/t/1.PNG") (py "t")) t img E.
  exists t, img. split; [exact E|].
  pose proof (resized_height_truncates
                (Fixture.world [Fixture.block]) default_engine
                (py "my_letters/t/1.PNG") (py "t") t img E) as Hth.
  cbv zeta in Hth. destruct Hth as (Hrows & _ & Htall & _).
  split; [exact Hrows|].
  apply Htall. right. left. reflexivity.
Defined.

(** C1 as stated fails: for the letter t and the default engine, the
    resized glyph has 29 rows, and 0.65 * 46 rounds to 30. *)
Lemma height_is_not_rounded :
  ~ height_is_rounded (Fixture.world [Fixture.block]) default_engine
      (py "my_letters/t/1.PNG") (py "t").
Proof.
  intros Hclaim.
  specialize (Hclaim _ _ eq_refl).
  vm_compute in Hclaim. discriminate Hclaim.
Qed.

(** ** The size of the glyph (C5) *)

Lemma resized_width_Ret (w h new_h new_w : Z) :
  resized_width w h new_h = Ret new_w ->
  exists aspect,
    Float.truediv w h = Ret aspect /\ int_times new_h aspect = Ret new_w.
Proof.
  unfold resized_width. intros Hw. bind_inv Hw aspect Ea. now exists aspect.
Qed.

Lemma padded_roi_shape (thresh : ndarray) (cs : list contour) :
  let '(x, y, w, h) := boundingRect (List.concat cs) in
  shape0 (padded_roi thresh cs) = slice_len (shape0 thresh) y (y + h) + 10 + 10 /\
  shape1 (padded_roi thresh cs) = slice_len (shape1 thresh) x (x + w) + 10 + 10.
Proof.
  unfold padded_roi.
  destruct (boundingRect (List.concat cs)) as [[[x y] w] h]. simpl. lia.
Qed.

Lemma glyph_size `{Platform} (fs : World) (e : Engine)
    (image_path char_ref : pystr) (t : locals) (img : Image) :
  process_letter_contour_trace fs e image_path char_ref = Ret (Some (t, img)) ->
  height img = std_size e /\ width img = l_new_w t.
Proof.
  intros Hrun.
  destruct (trace_inv fs e _ _ _ _ Hrun)
    as (raw & resized & canvas0 & canvas1 & start0 & Hsteps).
  cbv zeta in Hsteps.
  destruct Hsteps as (_ & _ & _ & _ & _ & _ & _ & _ & _ & _ & _ & _
                      & _ & _ & _ & _ & _ & _ & Himg).
  subst img. split; reflexivity.
Qed.

(** C5: a glyph returned by [process_letter_contour] is [std_size] pixels
    high; its width is [new_w], the number of columns of the resized crop,
    and [new_w = int(new_h * (w / h))] for the width [w] and the height
    [h] of the padded crop, the quotient and the product rounded to
    binary64 before the truncation. *)
Theorem glyph_height_is_std_size `{Platform} (fs : World) (e : Engine)
    (image_path char_ref : pystr) (t : locals) (img : Image) :
  process_letter_contour_trace fs e image_path char_ref = Ret (Some (t, img)) ->
  height img = std_size e /\
  width img = l_new_w t /\
  l_resized_shape t = (l_new_h t, l_new_w t) /\
  (exists aspect,
     Float.truediv (l_w t) (l_h t) = Ret aspect /\
     int_times (l_new_h t) aspect = Ret (l_new_w t)) /\
  (exists raw,
     imread fs image_path = Some raw /\
     l_h t = shape0 (padded_roi (binarize raw) (l_valid_contours t)) /\
     l_w t = shape1 (padded_roi (binarize raw) (l_valid_contours t))).
Proof.
  intros Hrun.
  destruct (trace_inv fs e _ _ _ _ Hrun)
    as (raw & resized & canvas0 & canvas1 & start0 & Hsteps).
  cbv zeta in Hsteps.
  destruct Hsteps as (Hread & _ & _ & _ & _ & Hh & Hw & _ & _ & _ & Hnw & Hres
                      & Hshape & _ & _ & _ & _ & _ & Himg).
  apply resize_Ret in Hres. destruct Hres as (_ & _ & Hrows & Hcols).
  subst img. simpl.
  repeat split.
  - now rewrite Hshape, Hrows, Hcols.
  - now apply resized_width_Ret.
  - exists raw. auto.
Qed.

Lemma glyph_height_is_std_size_witness :
  exists t img,
    Fixture.run [Fixture.block] default_engine (py "my_letters/a/1.PNG") (py "a")
      = Ret (Some (t, img)) /\
    height img = 50 /\ width img = l_new_w t /\
    l_resized_shape t = (l_new_h t, l_new_w t).
Proof.
  evaluate_run (Fixture.run [Fixture.block] default_engine
                            (py "my_letters/a/1.PNG") (py "a")) t img E.
  exists t, img. split; [exact E|].
  pose proof (glyph_height_is_std_size
                (Fixture.world [Fixture.block]) default_engine
                (py "my_letters/a/1.PNG") (py "a") t img E)
    as (Hh & Hw & Hs & _).
  split; [exact Hh | split; [exact Hw | exact Hs]].
Defined.

(** C5 as stated fails: for the character 1 and the default engine, a
    bar of 41x7 pixels gives a padded crop of 61x27 pixels and a target
    height of 27; 27 * 61 / 27 is 61, and the glyph is 60 pixels wide:
    the binary64 product [27 * (61 / 27)] is below 61. *)
Lemma width_is_not_exact_quotient :
  ~ width_is_exact_quotient WideBlock.world default_engine
                            (py "my_letters/1/1.PNG") (py "1").
Proof.
  intros Hclaim.
  evaluate_run (WideBlock.run default_engine (py "my_letters/1/1.PNG") (py "1"))
               t img E.
  specialize (Hclaim t img E).
  destruct (glyph_size WideBlock.world default_engine
                       (py "my_letters/1/1.PNG") (py "1") t img E) as [_ Hw].
  rewrite Hw in Hclaim.
  vm_compute in Hl. injection Hl as <-.
  vm_compute in Hclaim. discriminate.
Qed.

(** ** The offset of the composite (C6) *)

Lemma int_times_zero_size (c : Float.float) (h : Z) :
  In c [Float.c_0_20; Float.c_0_65; Float.c_0_35; Float.c_0_60] ->
  int_times (0 - 4) c = Ret h -> h <= 0.
Proof.
  intros Hc Hh.
  repeat (destruct Hc as [<-|Hc];
          [vm_compute in Hh; injection Hh as <-; lia|]).
  destruct Hc.
Qed.

Lemma target_height_zero_size (e : Engine) (s : pystr) (h : Z) :
  std_size e = 0 -> target_height e s = Ret h -> h <= 0.
Proof.
  unfold target_height. intros ->.
  destruct (mem s small_punct);
    [|destruct (mem s tall_letters);
      [|destruct (mem s descenders); [|destruct (mem s short_letters)]]];
    apply int_times_zero_size; simpl; auto.
Qed.

Lemma clamp_upper (e : Engine) (start_y new_h : Z) :
  clamp e start_y new_h + new_h <= std_size e.
Proof.
  unfold clamp.
  destruct (start_y <? 0);
    match goal with |- context [?a >? ?b] => destruct (Z.gtb_spec a b) end; lia.
Qed.

(** The slice assignment of line 110 goes through only if the glyph fits
    the canvas. *)
Lemma clamp_lower (e : Engine) (start_y new_h : Z) :
  0 <= std_size e -> 1 <= new_h ->
  (std_size e = 0 -> new_h <> 1) ->
  broadcasts new_h
    (slice_len (std_size e) (clamp e start_y new_h)
               (clamp e start_y new_h + new_h)) = true ->
  0 <= clamp e start_y new_h.
Proof.
  intros Hstd Hnh Hzero.
  unfold clamp.
  destruct (Z.ltb_spec start_y 0);
    match goal with |- context [?a >? ?b] => destruct (Z.gtb_spec a b) end;
    try lia.
  all: unfold broadcasts, slice_len, slice_index.
  all: replace (std_size e - new_h + new_h) with (std_size e) by lia.
  all: destruct (Z.ltb_spec (std_size e - new_h) 0); [|lia].
  all: destruct (Z.ltb_spec (std_size e) 0); [lia|].
  all: intros Hb; apply orb_true_iff in Hb; destruct Hb as [Hb|Hb];
    apply Z.eqb_eq in Hb; lia.
Qed.

(** C6: in a run that returns a glyph, the resized glyph of [new_h] rows
    is written to the rows [start_y .. start_y + new_h) of the canvas of
    [std_size] rows, and [0 <= start_y] and [start_y + new_h <= std_size]. *)
Theorem composite_inside_canvas `{Platform} (fs : World) (e : Engine)
    (image_path char_ref : pystr) (t : locals) (img : Image) :
  process_letter_contour_trace fs e image_path char_ref = Ret (Some (t, img)) ->
  0 <= l_start_y t /\
  l_start_y t + l_new_h t <= std_size e /\
  exists norm_canvas resized norm_canvas',
    shape0 norm_canvas = std_size e /\
    shape0 resized = l_new_h t /\
    setslice norm_canvas (l_start_y t) (l_start_y t + l_new_h t) 0 (l_new_w t)
             resized = Ret norm_canvas'.
Proof.
  intros Hrun.
  destruct (trace_inv fs e _ _ _ _ Hrun)
    as (raw & resized & canvas0 & canvas1 & start0 & Hsteps).
  cbv zeta in Hsteps.
  destruct Hsteps as (_ & _ & _ & _ & _ & _ & _ & _ & Hth & Hnh & _ & Hres
                      & _ & Hzero & _ & _ & Hstart & Hset & _).
  apply resize_Ret in Hres. destruct Hres as (_ & Hpos & Hrows & _).
  apply np_zeros_Ret in Hzero. destruct Hzero as (Hstd & _ & Hc0 & _).
  pose proof (setslice_Ret _ _ _ _ _ _ _ Hset) as (Hb & _).
  rewrite Hc0, Hrows, Hstart in Hb.
  split; [|split].
  - rewrite Hstart. apply clamp_lower; try assumption; try lia.
    intros Hz Hone.
    pose proof (target_height_zero_size e _ _ Hz Hth). lia.
  - rewrite Hstart. apply clamp_upper.
  - exists canvas0, resized, canvas1. auto.
Qed.

Lemma composite_inside_canvas_witness :
  exists t img,
    Fixture.run [Fixture.block] default_engine (py "my_letters/y/1.PNG") (py "y")
      = Ret (Some (t, img)) /\
    0 <= l_start_y t /\ l_start_y t + l_new_h t <= 50.
Proof.
  evaluate_run (Fixture.run [Fixture.block] default_engine
                            (py "my_letters/y/1.PNG") (py "y")) t img E.
  exists t, img. split; [exact E|].
  pose proof (composite_inside_canvas
                (Fixture.world [Fixture.block]) default_engine
                (py "my_letters/y/1.PNG") (py "y") t img E)
    as (Hlo & Hhi & _).
  split; [exact Hlo | exact Hhi].
Defined.

(** ** The pixels of the glyph (C10) *)

Lemma threshold_binary_values (src : ndarray) (thresh maxval i j : Z) :
  item (threshold_binary src thresh maxval) i j = 0 \/
  item (threshold_binary src thresh maxval) i j = maxval.
Proof. simpl. destruct (item src i j >? thresh); auto. Qed.

Lemma uint8_small (v : Z) : 0 <= v <= 255 -> uint8 v = v.
Proof. intros Hv. unfold uint8. apply Z.mod_small. lia. Qed.

(** C10: in a glyph returned by [process_letter_contour] for an engine
    whose ink colour is an RGB triple, every pixel has alpha 0 or 255 (the
    mask dilated twice and cut at 127) and the colour of the ink. *)
Theorem glyph_pixels_binary_alpha `{Platform} (fs : World) (e : Engine)
    (image_path char_ref : pystr) (t : locals) (img : Image) :
  process_letter_contour_trace fs e image_path char_ref = Ret (Some (t, img)) ->
  rgb_triple (ink_color e) ->
  exists norm_canvas,
    forall x y,
      let '(r, g, b, a) := getpixel img x y in
      a = item (threshold_binary (dilate norm_canvas 2) 127 255) y x /\
      (a = 0 \/ a = 255) /\
      (r, g, b) = ink_color e.
Proof.
  intros Hrun Hrgb.
  destruct (trace_inv fs e _ _ _ _ Hrun)
    as (raw & resized & canvas0 & canvas1 & start0 & Hsteps).
  cbv zeta in Hsteps.
  destruct Hsteps as (_ & _ & _ & _ & _ & _ & _ & _ & _ & _ & _ & _
                      & _ & _ & _ & _ & _ & _ & Himg).
  exists canvas1. intros x y. subst img. unfold colorize, ink_flow.
  cbn [getpixel].
  destruct (ink_color e) as [[r g] b]. destruct Hrgb as (Hr & Hg & Hb).
  split; [reflexivity|]. split.
  - apply threshold_binary_values.
  - now rewrite !uint8_small.
Qed.

Lemma glyph_pixels_binary_alpha_witness :
  exists t img,
    Fixture.run [Fixture.block] default_engine (py "my_letters/a/1.PNG") (py "a")
      = Ret (Some (t, img)) /\
    rgb_triple (20, 24, 82) /\
    let '(r, g, b, a) := getpixel img 6 30 in
    (a = 0 \/ a = 255) /\ (r, g, b) = (20, 24, 82).
Proof.
  evaluate_run (Fixture.run [Fixture.block] default_engine
                            (py "my_letters/a/1.PNG") (py "a")) t img E.
  exists t, img. split; [exact E|].
  assert (Hrgb : rgb_triple (ink_color default_engine)) by (simpl; lia).
  split; [exact Hrgb|].
  destruct (glyph_pixels_binary_alpha
              (Fixture.world [Fixture.block]) default_engine
              (py "my_letters/a/1.PNG") (py "a") t img E Hrgb)
    as (norm_canvas & Hpix).
  specialize (Hpix 6 30).
  destruct (getpixel img 6 30) as [[[r g] b] a].
  destruct Hpix as (_ & Ha & Hc). split; [exact Ha | exact Hc].
Defined.

(** ** No glyph (C8) *)

(** C8: [process_letter_contour] returns [None], and does not raise, when
    the sample cannot be read and when its binarisation has no contour. *)
Theorem no_glyph_returns_None `{Platform} (fs : World) (e : Engine)
    (image_path char_ref : pystr) (s : rng) :
  (imread fs image_path = None ->
   process_letter_contour fs e image_path char_ref s = Ret (None, s)) /\
  (forall img,
     imread fs image_path = Some img ->
     findContours (binarize img) = [] ->
     process_letter_contour fs e image_path char_ref s = Ret (None, s)).
Proof.
  unfold process_letter_contour, lift, process_letter_contour_trace.
  split.
  - intros ->. reflexivity.
  - intros img -> ->. reflexivity.
Qed.

Lemma no_glyph_returns_None_witness :
  @process_letter_contour (Fixture.platform [Fixture.block])
    (Fixture.world [Fixture.block]) default_engine
    (py "my_letters/b/1.PNG") (py "b") 0%nat = Ret (None, 0%nat) /\
  @process_letter_contour (Fixture.platform [])
    (Fixture.world []) default_engine
    (py "my_letters/a/1.PNG") (py "a") 3%nat = Ret (None, 3%nat).
Proof.
  split.
  - apply (@no_glyph_returns_None (Fixture.platform [Fixture.block])
             (Fixture.world [Fixture.block]) default_engine
             (py "my_letters/b/1.PNG") (py "b") 0%nat).
    reflexivity.
  - apply (proj2 (@no_glyph_returns_None (Fixture.platform [])
             (Fixture.world []) default_engine
             (py "my_letters/a/1.PNG") (py "a") 3%nat) Fixture.sample).
    + reflexivity.
    + reflexivity.
Defined.

(** ** Determinism of the normaliser (C9) *)

Lemma sbind_call `{Runtime} {A B} (f : state -> A * state)
    (k : A -> Stateful B) (s : state) :
  sbind (call f) k s = k (fst (f s)) (snd (f s)).
Proof. unfold sbind, call. destruct (f s) as [a s']. reflexivity. Qed.

Section Determinism.
Context `{Runtime}.
Variable cvtColor : picture -> ndarray.
Variable otsu : ndarray -> Z.
Variable contours : ndarray -> list contour.
Variable area : ndarray -> Z -> Z -> Z -> Z -> Z.
Variable ulower : pystr -> pystr.
Hypothesis cvtColor_answer :
  forall img s, fst (call_cvtColor_BGR2GRAY img s) = cvtColor img.
Hypothesis otsu_answer : forall a s, fst (call_otsu_level a s) = otsu a.
Hypothesis contours_answer :
  forall a s, fst (call_findContours a s) = contours a.
Hypothesis area_answer :
  forall a w h s, fst (call_inter_area a w h s) = area a w h.
Hypothesis ulower_answer :
  forall str s, fst (call_unicode_lower str s) = ulower str.

Lemma lower_stateful_answer (str : pystr) (s : state) :
  exists s', lower_stateful str s
             = (Ret (@lower (platform_of cvtColor otsu contours area ulower) str), s').
Proof.
  unfold lower_stateful, lower. destruct (forallb is_ascii str).
  - exists s. reflexivity.
  - unfold call. pose proof (ulower_answer str s) as Hu.
    destruct (call_unicode_lower str s) as [a s']. simpl in Hu. subst a.
    exists s'. reflexivity.
Qed.

Lemma resize_stateful_answer (src : ndarray) (w h : Z) (s : state) :
  exists s', resize_stateful src w h s
             = (@resize (platform_of cvtColor otsu contours area ulower) src w h, s').
Proof.
  unfold resize_stateful, resize.
  destruct (is_empty src || (w <=? 0) || (h <=? 0)).
  - exists s. reflexivity.
  - rewrite sbind_call. rewrite area_answer. eexists. reflexivity.
Qed.

Lemma normalizer_answer (e : Engine) (sample : option picture)
    (image_path char_ref : pystr) :
  (forall s, fst (call_imread image_path s) = sample) ->
  forall s,
    fst (process_letter_contour_stateful e image_path char_ref s)
    = returned (@process_letter_contour_trace
                  (platform_of cvtColor otsu contours area ulower)
                  (store_of (platform_of cvtColor otsu contours area ulower) sample)
                  e image_path char_ref).
Proof.
  intros Hread s.
  unfold process_letter_contour_stateful, process_letter_contour_trace, returned.
  rewrite sbind_call, Hread. generalize (snd (call_imread image_path s)).
  clear s. intros s. cbn [store_of imread].
  destruct sample as [img|]; [|reflexivity].
  rewrite sbind_call, cvtColor_answer.
  generalize (snd (call_cvtColor_BGR2GRAY img s)). clear s. intros s.
  rewrite sbind_call, otsu_answer.
  generalize (snd (call_otsu_level (cvtColor img) s)). clear s. intros s.
  rewrite sbind_call, contours_answer.
  match goal with
  | |- context [snd (call_findContours ?a s)] =>
      generalize (snd (call_findContours a s))
  end.
  clear s. intros s.
  unfold binarize. cbn [platform_of cvtColor_BGR2GRAY otsu_level findContours].
  destruct (contours (threshold_binary_inv (cvtColor img) (otsu (cvtColor img)) 255))
    as [|c0 cs] eqn:Ec; [reflexivity|].
  set (roi := padded_roi _ _).
  unfold sbind at 1.
  destruct (lower_stateful_answer char_ref s) as [s1 ->].
  fold (platform_of cvtColor otsu contours area ulower).
  set (P := platform_of cvtColor otsu contours area ulower).
  set (char_type := @lower P char_ref).
  destruct (target_height e char_type) as [new_h|x] eqn:Eth; [|reflexivity].
  unfold sbind at 1, pure at 1. cbn [obind].
  destruct (resized_width (shape1 roi) (shape0 roi) new_h) as [new_w|x] eqn:Ew;
    [|reflexivity].
  unfold sbind at 1, pure at 1. cbn [obind].
  unfold sbind at 1.
  destruct (resize_stateful_answer roi new_w new_h s1) as [s2 ->].
  fold P.
  destruct (@resize P roi new_w new_h) as [resized|x]; [|reflexivity].
  cbn [obind].
  destruct (np_zeros (std_size e) new_w) as [canvas0|x]; [|reflexivity].
  unfold sbind at 1, pure at 1. cbn [obind].
  destruct (baseline e) as [baseline_y|x]; [|reflexivity].
  unfold sbind at 1, pure at 1. cbn [obind].
  destruct (placement e char_type baseline_y new_h) as [start_y|x]; [|reflexivity].
  unfold sbind at 1, pure at 1. cbn [obind].
  destruct (setslice canvas0 (clamp e start_y new_h)
                     (clamp e start_y new_h + new_h) 0 new_w resized)
    as [canvas1|x]; [|reflexivity].
  unfold sbind at 1, pure at 1. cbn [obind].
  reflexivity.
Qed.

End Determinism.

(** C9: [process_letter_contour] is deterministic.  When each library
    call it makes answers by its arguments alone (whatever the call does
    to the state), and the file read decodes to the same sample, the
    function returns, or raises, the same in any two states of the
    interpreter: it is the value of the trace on the sample and the
    character.  Nothing is asked of the random generator, whose draws may
    depend on the state. *)
Theorem normalizer_is_deterministic `{Runtime}
    (cvtColor : picture -> ndarray) (otsu : ndarray -> Z)
    (contours : ndarray -> list contour)
    (area : ndarray -> Z -> Z -> Z -> Z -> Z) (ulower : pystr -> pystr)
    (e : Engine) (sample : option picture) (image_path char_ref : pystr) :
  (forall s, fst (call_imread image_path s) = sample) ->
  (forall img s, fst (call_cvtColor_BGR2GRAY img s) = cvtColor img) ->
  (forall a s, fst (call_otsu_level a s) = otsu a) ->
  (forall a s, fst (call_findContours a s) = contours a) ->
  (forall a w h s, fst (call_inter_area a w h s) = area a w h) ->
  (forall str s, fst (call_unicode_lower str s) = ulower str) ->
  forall s1 s2,
    fst (process_letter_contour_stateful e image_path char_ref s1)
    = fst (process_letter_contour_stateful e image_path char_ref s2) /\
    fst (process_letter_contour_stateful e image_path char_ref s1)
    = returned (@process_letter_contour_trace
                  (platform_of cvtColor otsu contours area ulower)
                  (store_of (platform_of cvtColor otsu contours area ulower) sample)
                  e image_path char_ref).
Proof.
  intros Hread Hgray Hotsu Hcont Harea Hlow s1 s2.
  pose proof (normalizer_answer cvtColor otsu contours area ulower
                Hgray Hotsu Hcont Harea Hlow e sample image_path char_ref Hread)
    as Hrun.
  split; [now rewrite (Hrun s1), (Hrun s2) | apply Hrun].
Qed.

Lemma normalizer_is_deterministic_witness :
  exists img,
    fst (@process_letter_contour_stateful (Counter.runtime [Fixture.block])
           default_engine (py "my_letters/a/1.PNG") (py "a") 0%nat)
    = Ret (Some img) /\
    fst (@process_letter_contour_stateful (Counter.runtime [Fixture.block])
           default_engine (py "my_letters/a/1.PNG") (py "a") 7%nat)
    = Ret (Some img).
Proof.
  destruct (@normalizer_is_deterministic (Counter.runtime [Fixture.block])
              (fun img => img) (fun _ => 127) (fun _ => [Fixture.block])
              Fixture.nearest (fun str => str)
              default_engine (Some Fixture.sample)
              (py "my_letters/a/1.PNG") (py "a")
              (fun _ => eq_refl) (fun _ _ => eq_refl) (fun _ _ => eq_refl)
              (fun _ _ => eq_refl) (fun _ _ _ _ => eq_refl)
              (fun _ _ => eq_refl) 0%nat 7%nat) as [Hsame Hrun].
  match type of Hrun with
  | _ = returned ?r => evaluate_run r t img E; rewrite E in Hrun
  end.
  exists img. split; [exact Hrun | rewrite <- Hsame; exact Hrun].
Defined.

(** The draws of [random.choice] do depend on the state. *)
Lemma random_choice_depends_on_state :
  fst (@random_choice_stateful (Counter.runtime []) Z [10; 20] 10 0%nat)
  <> fst (@random_choice_stateful (Counter.runtime []) Z [10; 20] 10 1%nat).
Proof. vm_compute. discriminate. Qed.

(** ** The contours kept (C7) *)

Lemma fold_min_le (l : list Z) (a : Z) :
  fold_left Z.min l a <= a /\ forall x, In x l -> fold_left Z.min l a <= x.
Proof.
  revert a. induction l as [|b l IH]; intros a; simpl.
  - split; [lia|]. intros x [].
  - destruct (IH (Z.min a b)) as [Ha Hl]. split; [lia|].
    intros x [<-|Hx]; [lia|]. now apply Hl.
Qed.

Lemma fold_max_ge (l : list Z) (a : Z) :
  a <= fold_left Z.max l a /\ forall x, In x l -> x <= fold_left Z.max l a.
Proof.
  revert a. induction l as [|b l IH]; intros a; simpl.
  - split; [lia|]. intros x [].
  - destruct (IH (Z.max a b)) as [Ha Hl]. split; [lia|].
    intros x [<-|Hx]; [lia|]. now apply Hl.
Qed.

(** The rectangle of [cv2.boundingRect] holds every point. *)
Lemma boundingRect_encloses (pts : list point) (p : point) :
  In p pts ->
  let '(x, y, w, h) := boundingRect pts in
  x <= fst p < x + w /\ y <= snd p < y + h.
Proof.
  destruct pts as [|q pts]; [intros []|].
  intros Hp. unfold boundingRect.
  destruct (fold_min_le (map fst pts) (fst q)) as [Hx0 Hx].
  destruct (fold_max_ge (map fst pts) (fst q)) as [Hx1 Hx'].
  destruct (fold_min_le (map snd pts) (snd q)) as [Hy0 Hy].
  destruct (fold_max_ge (map snd pts) (snd q)) as [Hy1 Hy'].
  destruct Hp as [<-|Hp]; [lia|].
  specialize (Hx (fst p) (in_map fst _ _ Hp)).
  specialize (Hx' (fst p) (in_map fst _ _ Hp)).
  specialize (Hy (snd p) (in_map snd _ _ Hp)).
  specialize (Hy' (snd p) (in_map snd _ _ Hp)).
  lia.
Qed.

Lemma select_contours_spec (contours : list contour) :
  let large := filter (fun cnt => contourArea_twice cnt >? 2 * 10) contours in
  (forall cnt, In cnt large <->
               In cnt contours /\ 2 * 10 < contourArea_twice cnt) /\
  (large <> [] -> select_contours contours = large) /\
  (large = [] -> select_contours contours = contours).
Proof.
  intros large. split; [|split].
  - intros cnt. unfold large. rewrite filter_In.
    rewrite Z.gtb_ltb, Z.ltb_lt. reflexivity.
  - unfold select_contours. fold large.
    destruct large; [intros Hn; now elim Hn | reflexivity].
  - unfold select_contours. fold large. now intros ->.
Qed.

(** C7, as the code has it: the contours kept are those of area greater
    than 10 (a contour of area 10 or less is dropped), or every contour
    found when none has an area greater than 10; the rectangle of the crop
    is the bounding rectangle of the points of the kept contours and holds
    each of them. *)
Theorem contours_kept `{Platform} (fs : World) (e : Engine)
    (image_path char_ref : pystr) (t : locals) (img : Image) :
  process_letter_contour_trace fs e image_path char_ref = Ret (Some (t, img)) ->
  let large :=
    filter (fun cnt => contourArea_twice cnt >? 2 * 10) (l_contours t) in
  (exists raw, imread fs image_path = Some raw /\
               l_contours t = findContours (binarize raw)) /\
  (forall cnt, In cnt large <->
               In cnt (l_contours t) /\ 2 * 10 < contourArea_twice cnt) /\
  (large <> [] -> l_valid_contours t = large) /\
  (large = [] -> l_valid_contours t = l_contours t) /\
  l_rect t = boundingRect (List.concat (l_valid_contours t)) /\
  (forall cnt p,
     In cnt (l_valid_contours t) -> In p cnt ->
     let '(x, y, w, h) := l_rect t in
     x <= fst p < x + w /\ y <= snd p < y + h).
Proof.
  intros Hrun large.
  destruct (trace_inv fs e _ _ _ _ Hrun)
    as (raw & resized & canvas0 & canvas1 & start0 & Hsteps).
  cbv zeta in Hsteps.
  destruct Hsteps as (Hread & Hfound & _ & Hvalid & Hrect & _).
  destruct (select_contours_spec (l_contours t)) as (Hin & Hsome & Hnone).
  split; [now exists raw|].
  split; [exact Hin|].
  split; [intros Hl; rewrite Hvalid; now apply Hsome|].
  split; [intros Hl; rewrite Hvalid; now apply Hnone|].
  split; [exact Hrect|].
  intros cnt p Hcnt Hp. rewrite Hrect.
  apply boundingRect_encloses.
  apply in_concat. now exists cnt.
Qed.

Lemma contours_kept_witness :
  exists t img,
    Fixture.run [Fixture.speck; Fixture.block] default_engine
                (py "my_letters/a/1.PNG") (py "a") = Ret (Some (t, img)) /\
    l_rect t = boundingRect (List.concat (l_valid_contours t)) /\
    (In Fixture.block (l_valid_contours t) <->
     In Fixture.block (l_contours t) /\ 2 * 10 < 2 * 171).
Proof.
  evaluate_run (Fixture.run [Fixture.speck; Fixture.block] default_engine
                            (py "my_letters/a/1.PNG") (py "a")) t img E.
  exists t, img. split; [exact E|].
  pose proof (contours_kept
                (Fixture.world [Fixture.speck; Fixture.block]) default_engine
                (py "my_letters/a/1.PNG") (py "a") t img E) as Hk.
  cbv zeta in Hk. destruct Hk as (_ & Hin & Hsome & _ & Hrect & _).
  split; [exact Hrect|].
  assert (Hlarge : filter (fun cnt => contourArea_twice cnt >? 2 * 10)
                          (l_contours t) <> []).
  { intros Hnil.
    assert (Hb : In Fixture.block
                   (filter (fun cnt => contourArea_twice cnt >? 2 * 10)
                           (l_contours t))).
    { apply Hin. split; [|vm_compute; reflexivity].
      vm_compute in Hl. injection Hl as <-. simpl. auto. }
    rewrite Hnil in Hb. exact Hb. }
  rewrite (Hsome Hlarge). exact (Hin Fixture.block).
Defined.

(** C7 as stated fails: the speck has area 10, which is not below 10, and
    it is dropped. *)
Lemma area_ten_is_discarded :
  ~ discards_below_minimum (Fixture.world [Fixture.speck; Fixture.block])
      default_engine (py "my_letters/a/1.PNG") (py "a").
Proof.
  intros Hclaim.
  evaluate_run (Fixture.run [Fixture.speck; Fixture.block] default_engine
                            (py "my_letters/a/1.PNG") (py "a")) t img E.
  specialize (Hclaim t img E).
  vm_compute in Hl. injection Hl as <-.
  vm_compute in Hclaim. discriminate Hclaim.
Qed.

(** ** The page composer *)

Lemma mbind_Ret `{Platform} {A B} (m : M A) (k : A -> M B) (s s' : rng) (b : B) :
  mbind m k s = Ret (b, s') ->
  exists a s1, m s = Ret (a, s1) /\ k a s1 = Ret (b, s').
Proof.
  unfold mbind. destruct (m s) as [[a s1]|x]; [|discriminate].
  intros Hk. now exists a, s1.
Qed.

Section ComposerFacts.
Context `{Platform}.
Variable fs : World.
Variable e : Engine.

(** ** The placeholder of a missing glyph (C4) *)

Lemma char_item_unavailable (fallback_width : Z) (char : pychar) (s : rng) :
  unavailable fs e char s ->
  exists s', char_item fs e fallback_width char s = Ret ((None, fallback_width), s').
Proof.
  intros [Hdir|Hempty|v0 vs v s1 Hdir Hvar Hchoice Hnone]; unfold char_item.
  - rewrite Hdir. now exists s.
  - rewrite Hempty. destruct (isdir fs (char_dir_of e char)); now exists s.
  - rewrite Hdir, Hvar. unfold mbind. rewrite Hchoice, Hnone. now exists s1.
Qed.

(** ** Word wrap (C3) *)

Lemma total_width_app (a b : list word_item) :
  total_width (a ++ b) = total_width a + total_width b.
Proof.
  induction a as [|it a IH]; simpl; [reflexivity|].
  unfold total_width in *. simpl. rewrite IH. lia.
Qed.

(** The scan of a word adds one item per character and keeps the running
    total equal to the sum of the widths. *)
Lemma scan_word_total (fallback_width : Z) (word : pystr) :
  forall (items : list word_item) (total : Z) (s s' : rng)
         (items' : list word_item) (total' : Z),
    scan_word fs e fallback_width word items total s = Ret ((items', total'), s') ->
    exists new,
      items' = items ++ new /\
      total' = total + total_width new /\
      List.length new = List.length word.
Proof.
  induction word as [|char rest IH]; intros items total s s' items' total' Hscan.
  - simpl in Hscan. unfold mret in Hscan. injection Hscan as <- <- <-.
    exists []. rewrite app_nil_r. simpl. split; [reflexivity|]. split; [lia|reflexivity].
  - simpl in Hscan. apply mbind_Ret in Hscan.
    destruct Hscan as (it & s1 & Hit & Hrest).
    apply IH in Hrest. destruct Hrest as (new & -> & -> & Hlen).
    exists (it :: new). rewrite <- app_assoc. simpl.
    split; [reflexivity|]. split; [|now rewrite Hlen].
    unfold total_width. simpl. lia.
Qed.

(** Drawing the items of a word appends their pastes, all on the line of
    the pen, and moves the pen right by the sum of the widths. *)
Lemma draw_items (items : list word_item) :
  forall pg : Page,
    let pg' := fold_left (draw_item) items pg in
    pastes (canvas pg') = pastes (canvas pg) ++ placed (curr_x pg) (curr_y pg) items /\
    curr_x pg' = curr_x pg + total_width items /\
    curr_y pg' = curr_y pg /\
    canvas_size (canvas pg') = canvas_size (canvas pg) /\
    canvas_fill (canvas pg') = canvas_fill (canvas pg).
Proof.
  induction items as [|[[g|] w] items IH]; intros pg; simpl.
  - rewrite app_nil_r. unfold total_width. simpl. repeat split; lia.
  - destruct (IH (draw_item pg (Some g, w))) as (Hp & Hx & Hy & Hs & Hf).
    simpl in *. rewrite Hp, Hx, Hy, Hs, Hf. rewrite <- app_assoc. simpl.
    unfold total_width. simpl. repeat split; lia.
  - destruct (IH (draw_item pg (None, w))) as (Hp & Hx & Hy & Hs & Hf).
    simpl in *. rewrite Hp, Hx, Hy, Hs, Hf.
    unfold total_width. simpl. repeat split; lia.
Qed.

Lemma placed_one_line (items : list word_item) :
  forall x y, Forall (fun p => snd (snd p) = y) (placed x y items).
Proof.
  induction items as [|[[g|] w] items IH]; intros x y; simpl.
  - constructor.
  - constructor; [reflexivity | apply IH].
  - apply IH.
Qed.

(** One turn of the loop over words. *)
Lemma do_word_inv (pixels_per_space fallback_width : Z) (pg : Page)
    (word : pystr) (s : rng) (pg' : Page) (s' : rng) :
  do_word fs e pixels_per_space fallback_width pg word s = Ret (pg', s') ->
  exists items,
    scan_word fs e fallback_width word [] 0 s
    = Ret ((items, total_width items), s') /\
    List.length items = List.length word /\
    let wraps := curr_x pg + total_width items >? max_x in
    let x0 := if wraps then start_x else curr_x pg in
    let y0 := if wraps then curr_y pg + line_height e else curr_y pg in
    pastes (canvas pg') = pastes (canvas pg) ++ placed x0 y0 items /\
    curr_y pg' = y0 /\
    curr_x pg' = x0 + total_width items + pixels_per_space.
Proof.
  unfold do_word. intros Hdo. apply mbind_Ret in Hdo.
  destruct Hdo as ([items total] & s1 & Hscan & Hret).
  unfold mret in Hret. injection Hret as <- <-.
  destruct (scan_word_total _ _ _ _ _ _ _ _ Hscan) as (new & Hitems & Htotal & Hlen).
  simpl in Hitems. subst items. rewrite Z.add_0_l in Htotal. subst total.
  exists new. split; [exact Hscan|]. split; [exact Hlen|].
  cbv zeta. unfold draw_word, wrap.
  destruct (curr_x pg + total_width new >? max_x).
  - match goal with
    | |- context [fold_left draw_item new ?p] =>
        destruct (draw_items new p) as (Hp & Hx & Hy & _)
    end.
    simpl in *. rewrite Hp, Hx, Hy. auto.
  - destruct (draw_items new pg) as (Hp & Hx & Hy & _).
    simpl in *. rewrite Hp, Hx, Hy. auto.
Qed.

End ComposerFacts.

(** C4: for a character whose folder is missing, whose folder holds no
    image, or whose drawn sample gives no glyph, the composer records the
    item [(None, fallback_width)] without raising; drawing that item
    pastes nothing and moves the pen right by exactly [fallback_width]. *)
Theorem missing_glyph_leaves_gap `{Platform} (fs : World) (e : Engine)
    (fallback_width : Z) (char : pychar) (s : rng) :
  unavailable fs e char s ->
  (exists s',
     char_item fs e fallback_width char s = Ret ((None, fallback_width), s')) /\
  (forall pg,
     canvas (draw_item pg (None, fallback_width)) = canvas pg /\
     curr_x (draw_item pg (None, fallback_width)) = curr_x pg + fallback_width /\
     curr_y (draw_item pg (None, fallback_width)) = curr_y pg).
Proof.
  intros Hun. split.
  - now apply char_item_unavailable.
  - intros pg. simpl. auto.
Qed.

(** C3: a word is placed in one piece. If the pen plus the total width of
    the word's items exceeds [max_x], the pen goes to the left margin and
    one line down before anything of the word is pasted; every glyph of
    the word is then pasted on that one line, left to right. *)
Theorem word_is_placed_on_one_line `{Platform} (fs : World) (e : Engine)
    (pixels_per_space fallback_width : Z) (pg : Page) (word : pystr)
    (s : rng) (pg' : Page) (s' : rng) :
  do_word fs e pixels_per_space fallback_width pg word s = Ret (pg', s') ->
  exists items,
    scan_word fs e fallback_width word [] 0 s
    = Ret ((items, total_width items), s') /\
    let wraps := curr_x pg + total_width items >? max_x in
    let x0 := if wraps then start_x else curr_x pg in
    let y0 := if wraps then curr_y pg + line_height e else curr_y pg in
    pastes (canvas pg') = pastes (canvas pg) ++ placed x0 y0 items /\
    Forall (fun p => snd (snd p) = y0) (placed x0 y0 items) /\
    curr_y pg' = y0 /\
    curr_x pg' = x0 + total_width items + pixels_per_space.
Proof.
  intros Hdo.
  destruct (do_word_inv fs e _ _ _ _ _ _ _ Hdo)
    as (items & Hscan & _ & Hplace).
  cbv zeta in Hplace. destruct Hplace as (Hp & Hy & Hx).
  exists items. split; [exact Hscan|]. cbv zeta.
  split; [exact Hp|]. split; [apply placed_one_line|]. split; assumption.
Qed.

Lemma page_summary_Ret `{Platform} (r : outcome (Page * rng))
    (ps : list (Z * Z)) (x y : Z) :
  page_summary r = Ret (ps, x, y) ->
  exists pg s,
    r = Ret (pg, s) /\ map snd (pastes (canvas pg)) = ps /\
    curr_x pg = x /\ curr_y pg = y.
Proof.
  destruct r as [[pg s]|err]; simpl; [|discriminate].
  intros Hr. injection Hr as <- <- <-. now exists pg, s.
Qed.

(** The word [at] met with the pen at 2190: its 37 pixels do not fit
    before 2200, and both glyphs go to the next line, from the margin. *)
Lemma word_is_placed_on_one_line_witness :
  exists pg' s',
    @do_word (Fixture.platform [Fixture.block]) (Fixture.world [Fixture.block])
             default_engine 20 25
             {| canvas := Image_new (2480, 3508) (255, 255, 255, 255);
                curr_x := 2190; curr_y := 200 |}
             (py "at") 0%nat = Ret (pg', s') /\
    map snd (pastes (canvas pg')) = [(200, 265); (214, 265)] /\
    curr_y pg' = 265 /\
    Forall (fun p => snd (snd p) = curr_y pg') (pastes (canvas pg')).
Proof.
  destruct (page_summary_Ret
              (@do_word (Fixture.platform [Fixture.block])
                        (Fixture.world [Fixture.block]) default_engine 20 25
                        {| canvas := Image_new (2480, 3508) (255, 255, 255, 255);
                           curr_x := 2190; curr_y := 200 |}
                        (py "at") 0%nat)
              [(200, 265); (214, 265)] 257 265)
    as (pg' & s' & Hdo & Hpos & Hx & Hy).
  { vm_compute. reflexivity. }
  exists pg', s'. split; [exact Hdo|]. split; [exact Hpos|]. split; [exact Hy|].
  destruct (@word_is_placed_on_one_line
              (Fixture.platform [Fixture.block]) (Fixture.world [Fixture.block])
              default_engine 20 25 _ (py "at") 0%nat pg' s' Hdo)
    as (items & _ & Hplace).
  cbv zeta in Hplace. destruct Hplace as (Hp & Hline & Hy' & _).
  rewrite Hp, Hy'. exact Hline.
Defined.

(** The characters Z (no folder), c (a folder without an image) and b (a
    sample that cannot be read) in the small store. *)
Lemma missing_glyph_leaves_gap_witness :
  (exists s', @char_item (Fixture.platform [Fixture.block])
                (Fixture.world [Fixture.block]) default_engine 25
                (ord "Z") 0%nat = Ret ((None, 25), s')) /\
  (exists s', @char_item (Fixture.platform [Fixture.block])
                (Fixture.world [Fixture.block]) default_engine 25
                (ord "c") 0%nat = Ret ((None, 25), s')) /\
  (exists s', @char_item (Fixture.platform [Fixture.block])
                (Fixture.world [Fixture.block]) default_engine 25
                (ord "b") 0%nat = Ret ((None, 25), s')).
Proof.
  split; [|split].
  - apply (@missing_glyph_leaves_gap (Fixture.platform [Fixture.block])
             (Fixture.world [Fixture.block]) default_engine 25 (ord "Z") 0%nat).
    apply collection_missing. reflexivity.
  - apply (@missing_glyph_leaves_gap (Fixture.platform [Fixture.block])
             (Fixture.world [Fixture.block]) default_engine 25 (ord "c") 0%nat).
    apply collection_empty. reflexivity.
  - apply (@missing_glyph_leaves_gap (Fixture.platform [Fixture.block])
             (Fixture.world [Fixture.block]) default_engine 25 (ord "b") 0%nat).
    apply (@normalization_failed (Fixture.platform [Fixture.block])
             (Fixture.world [Fixture.block]) default_engine (ord "b") 0%nat
             (py "1.PNG") [] (py "1.PNG") 1%nat); reflexivity.
Defined.

(** ** The alignment of descenders with short letters (C2) *)

Lemma all_range_spec (k : nat) (f : Z -> bool) :
  forall lo, all_range k lo f = true ->
  forall z, lo <= z < lo + 2 ^ Z.of_nat k -> f z = true.
Proof.
  induction k as [|k IH]; intros lo Hall z Hz.
  - simpl in *. assert (z = lo) by lia. now subst.
  - cbn [all_range] in Hall. apply andb_true_iff in Hall.
    destruct Hall as [Hlow Hhigh].
    rewrite Nat2Z.inj_succ, Z.pow_succ_r in Hz by lia.
    destruct (Z.lt_ge_cases z (lo + 2 ^ Z.of_nat k)).
    + apply (IH lo Hlow). lia.
    + apply (IH _ Hhigh). lia.
Qed.

(** The check holds for every glyph height from 0 to 65535. *)
Lemma alignment_checked : all_range 16 0 alignment_check = true.
Proof. vm_compute. reflexivity. Qed.

Lemma placement_descender (e : Engine) (s : pystr) (baseline_y new_h : Z) :
  In s descenders ->
  placement e s baseline_y new_h
  = (short_letter_height <- int_times (std_size e - 4) Float.c_0_35 ;;
     Ret (baseline_y - short_letter_height)).
Proof.
  intros Hs. unfold placement.
  repeat (destruct Hs as [<-|Hs]; [reflexivity|]). destruct Hs.
Qed.

Lemma placement_short (e : Engine) (s : pystr) (baseline_y new_h : Z) :
  In s short_letters ->
  placement e s baseline_y new_h = Ret (baseline_y - new_h).
Proof.
  intros Hs. unfold placement.
  repeat (destruct Hs as [<-|Hs]; [reflexivity|]). destruct Hs.
Qed.

(** C2: for an engine whose glyph height is below 65536, a descender and
    a short letter normalised in two runs (any samples, any stores) are
    composited at the same offset [start_y]: [baseline_y] minus the
    target height of the short class. *)
Theorem descender_top_is_short_top `{Platform} (fs1 fs2 : World) (e : Engine)
    (path1 path2 char1 char2 : pystr) (t1 t2 : locals) (img1 img2 : Image) :
  std_size e < 65536 ->
  In (lower char1) descenders ->
  In (lower char2) short_letters ->
  process_letter_contour_trace fs1 e path1 char1 = Ret (Some (t1, img1)) ->
  process_letter_contour_trace fs2 e path2 char2 = Ret (Some (t2, img2)) ->
  l_start_y t1 = l_start_y t2 /\
  l_baseline_y t1 = l_baseline_y t2 /\
  int_times (std_size e - 4) Float.c_0_35 = Ret (l_new_h t2) /\
  l_start_y t2 = l_baseline_y t2 - l_new_h t2.
Proof.
  intros Hsize Hdesc Hshort Hrun1 Hrun2.
  destruct (trace_inv fs1 e _ _ _ _ Hrun1)
    as (raw1 & resized1 & canvas1 & canvas1' & start1 & Hsteps1).
  destruct (trace_inv fs2 e _ _ _ _ Hrun2)
    as (raw2 & resized2 & canvas2 & canvas2' & start2 & Hsteps2).
  cbv zeta in Hsteps1, Hsteps2.
  destruct Hsteps1 as (_ & _ & _ & _ & _ & _ & _ & _ & Hth1 & Hnh1 & _ & Hres1
                       & _ & Hzero1 & Hbase1 & Hplace1 & Hstart1 & _).
  destruct Hsteps2 as (_ & _ & _ & _ & _ & _ & _ & _ & Hth2 & Hnh2 & _ & Hres2
                       & _ & _ & Hbase2 & Hplace2 & Hstart2 & _).
  apply resize_Ret in Hres1. destruct Hres1 as (_ & Hpos1 & _).
  apply resize_Ret in Hres2. destruct Hres2 as (_ & Hpos2 & _).
  apply np_zeros_Ret in Hzero1. destruct Hzero1 as (Hstd & _).
  rewrite (target_height_descender e _ Hdesc) in Hth1.
  rewrite (target_height_short e _ Hshort) in Hth2.
  rewrite (placement_descender e _ _ _ Hdesc), Hth2 in Hplace1.
  rewrite (placement_short e _ _ _ Hshort) in Hplace2.
  simpl in Hplace1. injection Hplace1 as <-. injection Hplace2 as <-.
  assert (Hb : l_baseline_y t1 = l_baseline_y t2).
  { rewrite Hbase1 in Hbase2. now injection Hbase2. }
  pose proof (all_range_spec 16 alignment_check 0 alignment_checked
                (std_size e)) as Hcheck.
  unfold alignment_check, baseline, clamp in Hcheck.
  cbn [std_size] in Hcheck.
  unfold baseline in Hbase2.
  rewrite Hth1, Hth2, Hbase2 in Hcheck.
  rewrite <- Hnh1, <- Hnh2 in Hcheck.
  replace (1 <=? l_new_h t2) with true in Hcheck by (symmetry; apply Z.leb_le; lia).
  replace (1 <=? l_new_h t1) with true in Hcheck by (symmetry; apply Z.leb_le; lia).
  cbn [andb] in Hcheck.
  specialize (Hcheck ltac:(change (2 ^ Z.of_nat 16) with 65536; lia)).
  apply andb_true_iff in Hcheck. destruct Hcheck as [Hc1 Hc2].
  apply Z.eqb_eq in Hc1, Hc2.
  unfold clamp in Hstart1, Hstart2.
  rewrite Hb in Hstart1. rewrite <- Hnh2 in Hstart1.
  rewrite Hc1 in Hstart1. rewrite Hc2 in Hstart2.
  rewrite <- Hnh2 in Hth2.
  repeat split; try assumption. congruence.
Qed.

Lemma descender_top_is_short_top_witness :
  exists t1 img1 t2 img2,
    Fixture.run [Fixture.block] default_engine (py "my_letters/y/1.PNG") (py "Y")
      = Ret (Some (t1, img1)) /\
    Fixture.run [Fixture.block] default_engine (py "my_letters/a/1.PNG") (py "a")
      = Ret (Some (t2, img2)) /\
    l_start_y t1 = l_start_y t2 /\
    l_start_y t2 = l_baseline_y t2 - l_new_h t2.
Proof.
  evaluate_run (Fixture.run [Fixture.block] default_engine
                            (py "my_letters/y/1.PNG") (py "Y")) t1 img1 E1.
  evaluate_run (Fixture.run [Fixture.block] default_engine
                            (py "my_letters/a/1.PNG") (py "a")) t2 img2 E2.
  exists t1, img1, t2, img2. split; [exact E1|]. split; [exact E2|].
  assert (Hsize : std_size default_engine < 65536) by (simpl; lia).
  assert (Hdesc : In (@lower (Fixture.platform [Fixture.block]) (py "Y"))
                     descenders)
    by (vm_compute; auto 10).
  assert (Hshort : In (@lower (Fixture.platform [Fixture.block]) (py "a"))
                      short_letters)
    by (vm_compute; auto 10).
  destruct (descender_top_is_short_top
              (Fixture.world [Fixture.block]) (Fixture.world [Fixture.block])
              default_engine _ _ _ _ t1 t2 img1 img2 Hsize Hdesc Hshort E1 E2)
    as (Hsame & _ & _ & Htop).
  split; [exact Hsame | exact Htop].
Defined.

(** ** Whole pages *)

Section PageFacts.
Context `{Platform}.
Variable fs : World.
Variable e : Engine.

(** The pastes of a line of text come word by word, each word on one
    line of the page. *)
Lemma do_words_groups (pixels_per_space fallback_width : Z) (words : list pystr) :
  forall (pg : Page) (s : rng) (pg' : Page) (s' : rng),
    do_words fs e pixels_per_space fallback_width words pg s = Ret (pg', s') ->
    exists groups,
      List.length groups = List.length words /\
      pastes (canvas pg') = pastes (canvas pg) ++ List.concat groups /\
      Forall one_line groups.
Proof.
  induction words as [|word rest IH]; intros pg s pg' s' Hdo.
  - simpl in Hdo. unfold mret in Hdo. injection Hdo as <- <-.
    exists []. simpl. rewrite app_nil_r. auto.
  - simpl in Hdo. apply mbind_Ret in Hdo.
    destruct Hdo as (pg1 & s1 & Hword & Hrest).
    destruct (do_word_inv fs e _ _ _ _ _ _ _ Hword) as (items & _ & _ & Hplace).
    cbv zeta in Hplace. destruct Hplace as (Hp & _).
    destruct (IH _ _ _ _ Hrest) as (groups & Hlen & Hps & Hall).
    match type of Hp with
    | _ = _ ++ placed ?x0 ?y0 items =>
        exists (placed x0 y0 items :: groups); split; [|split]
    end.
    + simpl. now rewrite Hlen.
    + rewrite Hps, Hp. simpl. now rewrite app_assoc.
    + constructor; [|exact Hall]. eexists. apply placed_one_line.
Qed.

Lemma do_lines_groups (pixels_per_space fallback_width : Z) (lines : list pystr) :
  forall (pg : Page) (s : rng) (pg' : Page) (s' : rng),
    do_lines fs e pixels_per_space fallback_width lines pg s = Ret (pg', s') ->
    exists groups,
      List.length groups = List.length (flat_map (split (ord " ")) lines) /\
      pastes (canvas pg') = pastes (canvas pg) ++ List.concat groups /\
      Forall one_line groups.
Proof.
  induction lines as [|line rest IH]; intros pg s pg' s' Hdo.
  - simpl in Hdo. unfold mret in Hdo. injection Hdo as <- <-.
    exists []. simpl. rewrite app_nil_r. auto.
  - simpl in Hdo. apply mbind_Ret in Hdo.
    destruct Hdo as (pg1 & s1 & Hwords & Hrest).
    destruct (do_words_groups _ _ _ _ _ _ _ Hwords) as (g1 & Hlen1 & Hp1 & Hall1).
    destruct (IH _ _ _ _ Hrest) as (g2 & Hlen2 & Hp2 & Hall2).
    simpl in Hp2.
    exists (g1 ++ g2). split; [|split].
    + simpl. rewrite !length_app. now rewrite Hlen1, Hlen2.
    + rewrite Hp2, Hp1, concat_app. now rewrite app_assoc.
    + apply Forall_app. now split.
Qed.

(** On a finished page the pastes come word by word, in the order of the
    text, and no word has glyphs on two lines. *)
Lemma generate_words_unsplit (text : pystr) (s : rng) (page : Canvas) (s' : rng) :
  generate fs e text s = Ret (page, s') ->
  exists groups,
    List.length groups = List.length (words_of text) /\
    pastes page = List.concat groups /\
    Forall one_line groups.
Proof.
  unfold generate. intros Hgen.
  apply mbind_Ret in Hgen. destruct Hgen as (pps & s1 & _ & Hgen).
  apply mbind_Ret in Hgen. destruct Hgen as (fb & s2 & _ & Hgen).
  apply mbind_Ret in Hgen. destruct Hgen as (pg & s3 & Hlines & Hret).
  unfold mret in Hret. injection Hret as <- <-.
  destruct (do_lines_groups _ _ _ _ _ _ _ Hlines) as (groups & Hlen & Hp & Hall).
  exists groups. auto.
Qed.

(** Without any folder every character is a gap. *)
Lemma scan_word_without_store (fallback_width : Z) (word : pystr) :
  (forall p, isdir fs p = false) ->
  forall items total s,
    scan_word fs e fallback_width word items total s
    = Ret ((items ++ map (fun _ => (None, fallback_width)) word,
            total + fallback_width * Z.of_nat (List.length word)), s).
Proof.
  intros Hno. induction word as [|char rest IH]; intros items total s.
  - simpl. unfold mret. rewrite app_nil_r. do 3 f_equal. lia.
  - cbn [scan_word]. unfold mbind, char_item. rewrite Hno. unfold mret.
    rewrite IH. rewrite <- app_assoc. cbn [map List.length app snd].
    do 3 f_equal. lia.
Qed.

Lemma draw_gaps (w : Z) (word : pystr) :
  forall pg,
    canvas (fold_left draw_item (map (fun _ => (None, w)) word) pg) = canvas pg.
Proof.
  induction word as [|char rest IH]; intros pg; simpl; [reflexivity|].
  now rewrite IH.
Qed.

Lemma do_words_without_store (pixels_per_space fallback_width : Z)
    (words : list pystr) :
  (forall p, isdir fs p = false) ->
  forall pg s,
    exists pg',
      do_words fs e pixels_per_space fallback_width words pg s = Ret (pg', s) /\
      canvas pg' = canvas pg.
Proof.
  intros Hno. induction words as [|word rest IH]; intros pg s.
  - exists pg. split; reflexivity.
  - cbn [do_words]. unfold mbind at 1. unfold do_word, mbind.
    rewrite (scan_word_without_store _ _ Hno). unfold mret.
    match goal with
    | |- context [do_words _ _ _ _ rest ?p s] => destruct (IH p s) as (pg' & Hdo & Hc)
    end.
    exists pg'. split; [exact Hdo|]. rewrite Hc.
    unfold draw_word. cbn [canvas app]. rewrite draw_gaps.
    unfold wrap. now destruct (_ >? _).
Qed.

Lemma do_lines_without_store (pixels_per_space fallback_width : Z)
    (lines : list pystr) :
  (forall p, isdir fs p = false) ->
  forall pg s,
    exists pg',
      do_lines fs e pixels_per_space fallback_width lines pg s = Ret (pg', s) /\
      canvas pg' = canvas pg.
Proof.
  intros Hno. induction lines as [|line rest IH]; intros pg s.
  - exists pg. split; reflexivity.
  - cbn [do_lines]. unfold mbind.
    destruct (do_words_without_store pixels_per_space fallback_width
                (split (ord " ") line) Hno pg s) as (pg1 & -> & Hc1).
    match goal with
    | |- context [do_lines _ _ _ _ rest ?p s] => destruct (IH p s) as (pg' & Hdo & Hc)
    end.
    exists pg'. split; [exact Hdo|]. now rewrite Hc.
Qed.

(** With no folder at all, [generate] still returns: the page is blank,
    whatever the text. *)
Lemma generate_without_store (text : pystr) (s : rng)
    (pixels_per_space fallback_width : Z) :
  (forall p, isdir fs p = false) ->
  int_times (std_size e) Float.c_0_4 = Ret pixels_per_space ->
  int_times (std_size e) Float.c_0_5 = Ret fallback_width ->
  generate fs e text s
  = Ret (Image_new (2480, 3508) (255, 255, 255, 255), s).
Proof.
  intros Hno Hpps Hfb. unfold generate, mbind, lift. rewrite Hpps, Hfb.
  match goal with
  | |- context [do_lines _ _ ?a ?b ?l ?p s] =>
      destruct (do_lines_without_store a b l Hno p s) as (pg' & -> & Hc)
  end.
  unfold mret. now rewrite Hc.
Qed.

End PageFacts.

(** The bound on the glyph height in the alignment of descenders is
    needed: at [std_size = 2^53 + 7] the products are rounded by more
    than a pixel and the clamp lifts the descender by one row. *)
Lemma alignment_needs_bounded_size :
  alignment_check (2 ^ 53 + 7) = false.
Proof. vm_compute. reflexivity. Qed.

(** The products and quotients above are those of binary64 arithmetic,
    as in the source; they can fall one short of the exact value:
    0.35 * 180 is 63 and [int(180 * 0.35)] is 62; 27 * 61 / 27 is 61 and
    [int(27 * (61 / 27))] is 60. *)
Lemma short_height_at_184 : int_times (184 - 4) Float.c_0_35 = Ret 62.
Proof. vm_compute. reflexivity. Qed.

Lemma width_of_61_by_27 : resized_width 61 27 27 = Ret 60.
Proof. vm_compute. reflexivity. Qed.

(** * Further properties of the normaliser *)

(** ** The clamp *)

(** The check holds for every glyph height from 0 to 65535. *)
Lemma placement_checked : all_range 16 0 placement_check = true.
Proof. vm_compute. reflexivity. Qed.

Lemma quote_is_punct (s : pystr) :
  In s [py "'"; double_quote; py "`"] ->
  mem s small_punct = true /\ mem s [py "."; py ","] = false /\
  mem s descenders = false.
Proof.
  intros Hs. repeat (destruct Hs as [<-|Hs]; [repeat split; reflexivity|]).
  destruct Hs.
Qed.

Lemma descender_not_quote (s : pystr) :
  In s descenders ->
  mem s [py "."; py ","] = false /\ mem s [py "'"; double_quote; py "`"] = false.
Proof.
  intros Hs. repeat (destruct Hs as [<-|Hs]; [split; reflexivity|]).
  destruct Hs.
Qed.

Lemma fits_true (s new_h start_y : Z) :
  (new_h <? 1) || ((0 <=? start_y) && (start_y + new_h <=? s)) = true ->
  1 <= new_h -> 0 <= start_y /\ start_y + new_h <= s.
Proof.
  intros Hf Hn. apply orb_true_iff in Hf. destruct Hf as [Hf|Hf].
  - apply Z.ltb_lt in Hf. lia.
  - apply andb_true_iff in Hf. destruct Hf as [H0 H1].
    apply Z.leb_le in H0, H1. lia.
Qed.

(** For a glyph height below 65536, the offset of lines 88-104 puts a
    glyph of at least one row inside the canvas. *)
Lemma placement_in_canvas (e : Engine) (char_type : pystr) (new_h : Z) :
  0 <= std_size e < 65536 ->
  target_height e char_type = Ret new_h ->
  1 <= new_h ->
  exists baseline_y start_y,
    baseline e = Ret baseline_y /\
    placement e char_type baseline_y new_h = Ret start_y /\
    0 <= start_y /\ start_y + new_h <= std_size e.
Proof.
  intros Hsize Hth Hpos.
  pose proof (all_range_spec 16 placement_check 0 placement_checked
                (std_size e)) as Hcheck.
  specialize (Hcheck ltac:(change (2 ^ Z.of_nat 16) with 65536; lia)).
  unfold placement_check in Hcheck.
  destruct (int_times (std_size e - 4) Float.c_0_20) as [h20|] eqn:E20;
    [|discriminate].
  destruct (int_times (std_size e - 4) Float.c_0_65) as [h65|] eqn:E65;
    [|discriminate].
  destruct (int_times (std_size e - 4) Float.c_0_35) as [h35|] eqn:E35;
    [|discriminate].
  destruct (int_times (std_size e - 4) Float.c_0_60) as [h60|] eqn:E60;
    [|discriminate].
  destruct (int_times (std_size e) Float.c_0_70) as [b|] eqn:E70;
    [|discriminate].
  destruct (int_times (std_size e) Float.c_0_15) as [q|] eqn:E15;
    [|discriminate].
  repeat (apply andb_true_iff in Hcheck; destruct Hcheck as [Hcheck ?]).
  exists b. unfold baseline. rewrite E70.
  assert (Hsame : forall h, h = new_h ->
            (h <? 1) || ((0 <=? b - h) && (b - h + h <=? std_size e)) = true ->
            exists start_y, Ret (b - new_h) = Ret start_y /\
                            0 <= start_y /\ start_y + new_h <= std_size e).
  { intros h -> Hf. exists (b - new_h). split; [reflexivity|].
    now apply fits_true. }
  assert (Hany : exists start_y, Ret (b - new_h) = Ret start_y /\
                            0 <= start_y /\ start_y + new_h <= std_size e).
  { unfold target_height in Hth.
    destruct (mem char_type small_punct);
      [|destruct (mem char_type tall_letters);
        [|destruct (mem char_type descenders);
          [|destruct (mem char_type short_letters)]]];
      rewrite ?E20, ?E65, ?E35, ?E60 in Hth; injection Hth as Hh;
      eapply Hsame; eauto. }
  unfold placement.
  destruct (mem char_type [py "."; py ","]) eqn:Edot.
  { destruct Hany as (st & Hst & Hb). exists st. auto. }
  destruct (mem char_type [py "'"; double_quote; py "`"]) eqn:Equote.
  { apply mem_In in Equote. destruct (quote_is_punct _ Equote) as (Hp & _).
    unfold target_height in Hth. rewrite Hp, E20 in Hth. injection Hth as ->.
    rewrite E15. exists q. split; [reflexivity|]. split; [reflexivity|].
    now apply fits_true. }
  destruct (mem char_type descenders) eqn:Edesc.
  { apply mem_In in Edesc.
    rewrite (target_height_descender e _ Edesc), E65 in Hth.
    injection Hth as ->. rewrite E35. simpl.
    exists (b - h35). split; [reflexivity|]. split; [reflexivity|].
    now apply fits_true. }
  destruct Hany as (st & Hst & Hb). exists st. auto.
Qed.

Lemma clamp_inside (e : Engine) (start_y new_h : Z) :
  0 <= start_y -> start_y + new_h <= std_size e ->
  clamp e start_y new_h = start_y.
Proof.
  intros H0 H1. unfold clamp.
  destruct (Z.ltb_spec start_y 0); [lia|].
  destruct (Z.gtb_spec (start_y + new_h) (std_size e)); [lia|reflexivity].
Qed.

(** X1: for a glyph height below 65536 the clamp of lines 107-108 never
    moves a glyph: [start_y] is the offset of lines 88-104. A quote mark
    has its top at [int(std_size * 0.15)], a descender at [baseline_y]
    minus the short height, and every other glyph has its bottom on
    [baseline_y]. *)
Theorem clamp_never_moves_glyph `{Platform} (fs : World) (e : Engine)
    (image_path char_ref : pystr) (t : locals) (img : Image) :
  std_size e < 65536 ->
  process_letter_contour_trace fs e image_path char_ref = Ret (Some (t, img)) ->
  let char_type := lower char_ref in
  let quotes := [py "'"; double_quote; py "`"] in
  placement e char_type (l_baseline_y t) (l_new_h t) = Ret (l_start_y t) /\
  (In char_type quotes ->
     int_times (std_size e) Float.c_0_15 = Ret (l_start_y t)) /\
  (In char_type descenders ->
     exists short_letter_height,
       int_times (std_size e - 4) Float.c_0_35 = Ret short_letter_height /\
       l_start_y t = l_baseline_y t - short_letter_height) /\
  (~ In char_type quotes -> ~ In char_type descenders ->
     l_start_y t + l_new_h t = l_baseline_y t).
Proof.
  intros Hsize Hrun char_type quotes.
  destruct (trace_inv fs e _ _ _ _ Hrun)
    as (raw & resized & canvas0 & canvas1 & start0 & Hsteps).
  cbv zeta in Hsteps.
  destruct Hsteps as (_ & _ & _ & _ & _ & _ & _ & _ & Hth & Hnh & _ & Hres
                      & _ & Hzero & Hbase & Hplace & Hstart & _).
  apply resize_Ret in Hres. destruct Hres as (_ & Hpos & _).
  apply np_zeros_Ret in Hzero. destruct Hzero as (Hstd & _).
  rewrite <- Hnh in Hth.
  destruct (placement_in_canvas e _ _ (conj Hstd Hsize) Hth ltac:(lia))
    as (b & st & Hb & Hst & Hlo & Hhi).
  rewrite Hbase in Hb. injection Hb as <-.
  rewrite Hplace in Hst. injection Hst as <-.
  rewrite (clamp_inside e _ _ Hlo Hhi) in Hstart.
  rewrite <- Hstart in Hplace. fold char_type in Hplace.
  split; [exact Hplace|]. unfold placement in Hplace.
  split; [|split].
  - intros Hq. destruct (quote_is_punct _ Hq) as (_ & Hd & _).
    apply mem_In in Hq. fold quotes in Hplace. now rewrite Hd, Hq in Hplace.
  - intros Hd. destruct (descender_not_quote _ Hd) as (Hdot & Hq).
    apply mem_In in Hd. rewrite Hdot, Hq, Hd in Hplace.
    destruct (int_times (std_size e - 4) Float.c_0_35) as [hs|];
      [|discriminate].
    simpl in Hplace. injection Hplace as Hs. exists hs. split; [reflexivity|lia].
  - intros Hq Hd. apply mem_not_In in Hq, Hd.
    fold quotes in Hplace. rewrite Hq, Hd in Hplace.
    destruct (mem char_type [py "."; py ","]); injection Hplace as Hs; lia.
Qed.

Lemma clamp_never_moves_glyph_witness :
  exists t img,
    Fixture.run [Fixture.block] default_engine (py "my_letters/t/1.PNG") (py "t")
      = Ret (Some (t, img)) /\
    l_start_y t + l_new_h t = l_baseline_y t.
Proof.
  evaluate_run (Fixture.run [Fixture.block] default_engine
                            (py "my_letters/t/1.PNG") (py "t")) t img E.
  exists t, img. split; [exact E|].
  assert (Hsize : std_size default_engine < 65536) by (simpl; lia).
  pose proof (clamp_never_moves_glyph
                (Fixture.world [Fixture.block]) default_engine
                (py "my_letters/t/1.PNG") (py "t") t img Hsize E) as Hc.
  cbv zeta in Hc. destruct Hc as (_ & _ & _ & Hbottom).
  apply Hbottom.
  - vm_compute. intuition discriminate.
  - vm_compute. intuition discriminate.
Defined.

(** ** When a run returns a glyph *)

Lemma slice_len_nonneg (n a b : Z) : 0 <= slice_len n a b.
Proof. unfold slice_len. lia. Qed.

Lemma slice_len_exact (n a k : Z) :
  0 <= a -> 0 <= k -> a + k <= n -> slice_len n a (a + k) = k.
Proof.
  intros Ha Hk Hn. unfold slice_len, slice_index.
  destruct (Z.ltb_spec a 0); [lia|].
  destruct (Z.ltb_spec (a + k) 0); lia.
Qed.

(** The padded crop has at least 20 rows and 20 columns. *)
Lemma padded_roi_large (thresh : ndarray) (cs : list contour) :
  20 <= shape0 (padded_roi thresh cs) /\ 20 <= shape1 (padded_roi thresh cs).
Proof.
  pose proof (padded_roi_shape thresh cs) as Hs.
  destruct (boundingRect (List.concat cs)) as [[[x y] w] h].
  destruct Hs as [-> ->].
  pose proof (slice_len_nonneg (shape0 thresh) y (y + h)).
  pose proof (slice_len_nonneg (shape1 thresh) x (x + w)).
  lia.
Qed.

Lemma padded_roi_not_empty (thresh : ndarray) (cs : list contour) :
  is_empty (padded_roi thresh cs) = false.
Proof.
  destruct (padded_roi_large thresh cs) as [H0 H1]. unfold is_empty.
  apply orb_false_iff. split; apply Z.leb_gt; lia.
Qed.

Lemma resize_ok `{Platform} (src : ndarray) (w h : Z) :
  is_empty src = false -> 1 <= w -> 1 <= h ->
  resize src w h = Ret {| shape0 := h; shape1 := w; item := inter_area src w h |}.
Proof.
  intros He Hw Hh. unfold resize. rewrite He.
  destruct (Z.leb_spec w 0); [lia|]. destruct (Z.leb_spec h 0); [lia|].
  reflexivity.
Qed.

Lemma resize_degenerate `{Platform} (src : ndarray) (w h : Z) :
  w <= 0 \/ h <= 0 -> resize src w h = Raise cv2_error.
Proof.
  intros Hd. unfold resize. destruct (is_empty src); [reflexivity|]. simpl.
  destruct (Z.leb_spec w 0); [reflexivity|].
  destruct (Z.leb_spec h 0); [reflexivity|]. lia.
Qed.

Lemma setslice_fits (a v : ndarray) (y0 y1 x0 x1 : Z) :
  shape0 v = slice_len (shape0 a) y0 y1 ->
  shape1 v = slice_len (shape1 a) x0 x1 ->
  exists a', setslice a y0 y1 x0 x1 v = Ret a'.
Proof.
  intros H0 H1. unfold setslice, broadcasts.
  rewrite <- H0, <- H1, !Z.eqb_refl. simpl. eexists. reflexivity.
Qed.

(** X2: for an ink colour that is an RGB triple and a glyph height from
    0 to 65535, a readable sample with at least one contour gives a glyph
    as soon as the two sizes asked of the resize are at least one: no
    later step raises. *)
Theorem run_returns_glyph `{Platform} (fs : World) (e : Engine)
    (image_path char_ref : pystr) (raw : raw_image) (new_h new_w : Z) :
  rgb_triple (ink_color e) ->
  0 <= std_size e < 65536 ->
  imread fs image_path = Some raw ->
  findContours (binarize raw) <> [] ->
  let roi := padded_roi (binarize raw)
                        (select_contours (findContours (binarize raw))) in
  target_height e (lower char_ref) = Ret new_h ->
  resized_width (shape1 roi) (shape0 roi) new_h = Ret new_w ->
  1 <= new_h -> 1 <= new_w ->
  exists t img,
    process_letter_contour_trace fs e image_path char_ref = Ret (Some (t, img)) /\
    l_new_h t = new_h /\ l_new_w t = new_w.
Proof.
  intros _ Hsize Hread Hcont roi Hth Hw Hnh Hnw.
  destruct (placement_in_canvas e _ _ Hsize Hth Hnh)
    as (b & st & Hb & Hst & Hlo & Hhi).
  unfold process_letter_contour_trace. rewrite Hread.
  unfold roi in Hw. clear roi.
  remember (findContours (binarize raw)) as contours eqn:Ec.
  destruct contours as [|c0 cs]; [now elim Hcont|].
  rewrite Hth. cbn [obind]. rewrite Hw. cbn [obind].
  rewrite (resize_ok _ _ _ (padded_roi_not_empty _ _) Hnw Hnh). cbn [obind].
  unfold np_zeros.
  destruct (Z.ltb_spec (std_size e) 0); [lia|].
  destruct (Z.ltb_spec new_w 0); [lia|]. cbn [orb obind].
  rewrite Hb. cbn [obind]. rewrite Hst. cbn [obind].
  rewrite (clamp_inside e _ _ Hlo Hhi).
  match goal with
  | |- context [setslice ?a ?y0 ?y1 ?x0 ?x1 ?v] =>
      destruct (setslice_fits a v y0 y1 x0 x1) as (a' & Ha')
  end.
  - cbn [shape0]. symmetry. apply slice_len_exact; lia.
  - cbn [shape1]. symmetry. apply (slice_len_exact new_w 0 new_w); lia.
  - rewrite Ha'. cbn [obind].
    eexists. eexists. split; [reflexivity|]. split; reflexivity.
Qed.

Lemma run_returns_glyph_witness :
  exists t img,
    Fixture.run [Fixture.block] default_engine (py "my_letters/a/1.PNG") (py "A")
    = Ret (Some (t, img)) /\
    l_new_h t = 16 /\ l_new_w t = 12.
Proof.
  apply (@run_returns_glyph (Fixture.platform [Fixture.block])
           (Fixture.world [Fixture.block]) default_engine
           (py "my_letters/a/1.PNG") (py "A") Fixture.sample 16 12).
  - simpl. lia.
  - simpl. lia.
  - reflexivity.
  - discriminate.
  - vm_compute. reflexivity.
  - vm_compute. reflexivity.
  - lia.
  - lia.
Defined.

(** X3: when the target height or the width computed from the aspect
    ratio is below one (a crop more than [new_h] times higher than wide),
    [cv2.resize] fails and [process_letter_contour] raises [cv2.error];
    it does not return [None]. *)
Theorem degenerate_size_raises `{Platform} (fs : World) (e : Engine)
    (image_path char_ref : pystr) (raw : raw_image) (new_h new_w : Z) :
  imread fs image_path = Some raw ->
  findContours (binarize raw) <> [] ->
  let roi := padded_roi (binarize raw)
                        (select_contours (findContours (binarize raw))) in
  target_height e (lower char_ref) = Ret new_h ->
  resized_width (shape1 roi) (shape0 roi) new_h = Ret new_w ->
  new_h <= 0 \/ new_w <= 0 ->
  process_letter_contour_trace fs e image_path char_ref = Raise cv2_error.
Proof.
  intros Hread Hcont roi Hth Hw Hdeg.
  unfold process_letter_contour_trace. rewrite Hread.
  unfold roi in Hw. clear roi.
  remember (findContours (binarize raw)) as contours eqn:Ec.
  destruct contours as [|c0 cs]; [now elim Hcont|].
  rewrite Hth. cbn [obind]. rewrite Hw. cbn [obind].
  rewrite resize_degenerate by tauto. reflexivity.
Qed.

(** The stroke of 1x300 pixels as a full stop: the target is 9 rows and
    [int(9 * (21 / 320))] is 0 columns. *)
Lemma degenerate_size_raises_witness :
  @process_letter_contour_trace ThinStroke.platform ThinStroke.world
    default_engine (py "my_letters/dot/1.png") (py ".") = Raise cv2_error.
Proof.
  apply (@degenerate_size_raises ThinStroke.platform ThinStroke.world
           default_engine (py "my_letters/dot/1.png") (py ".")
           ThinStroke.sample 9 0).
  - reflexivity.
  - discriminate.
  - vm_compute. reflexivity.
  - vm_compute. reflexivity.
  - right. lia.
Defined.

(** ** What a run never does *)

Lemma int_times_Raise (n : Z) (c : Float.float) (x : exn) :
  int_times n c = Raise x -> x = OverflowError \/ x = ValueError.
Proof.
  unfold int_times, Float.int_mul, Float.of_int.
  destruct (Float.is_finite _); simpl.
  - destruct (SFmul _ _ _ _); simpl; intros Hx; try discriminate;
      injection Hx as <-; auto.
  - intros Hx. injection Hx as <-. auto.
Qed.

Lemma target_height_Raise (e : Engine) (s : pystr) (x : exn) :
  target_height e s = Raise x -> x = OverflowError \/ x = ValueError.
Proof.
  unfold target_height.
  destruct (mem s small_punct);
    [|destruct (mem s tall_letters);
      [|destruct (mem s descenders); [|destruct (mem s short_letters)]]];
    apply int_times_Raise.
Qed.

Lemma placement_Raise (e : Engine) (s : pystr) (b h : Z) (x : exn) :
  placement e s b h = Raise x -> x = OverflowError \/ x = ValueError.
Proof.
  unfold placement.
  destruct (mem s [py "."; py ","]); [discriminate|].
  destruct (mem s [py "'"; double_quote; py "`"]); [apply int_times_Raise|].
  destruct (mem s descenders); [|discriminate].
  destruct (int_times (std_size e - 4) Float.c_0_35) eqn:E; simpl;
    [discriminate|].
  intros Hx. injection Hx as <-. now apply int_times_Raise in E.
Qed.

Lemma resized_width_Raise (w h new_h : Z) (x : exn) :
  h <> 0 -> resized_width w h new_h = Raise x ->
  x = OverflowError \/ x = ValueError.
Proof.
  intros Hh. unfold resized_width, Float.truediv.
  destruct (Z.eqb_spec h 0); [contradiction|].
  destruct (Float.is_finite _); simpl.
  - apply int_times_Raise.
  - intros Hx. injection Hx as <-. auto.
Qed.

(** X4: [process_letter_contour] never raises [ZeroDivisionError]: the
    aspect ratio divides by the height of the padded crop, which is at
    least 20. *)
Theorem never_divides_by_zero `{Platform} (fs : World) (e : Engine)
    (image_path char_ref : pystr) :
  process_letter_contour_trace fs e image_path char_ref
  <> Raise ZeroDivisionError.
Proof.
  unfold process_letter_contour_trace.
  destruct (imread fs image_path) as [raw|]; [|discriminate].
  destruct (findContours (binarize raw)) as [|c0 cs]; [discriminate|].
  set (roi := padded_roi _ _).
  destruct (target_height e (lower char_ref)) as [th|x] eqn:Eth; cbn [obind].
  2:{ apply target_height_Raise in Eth. intros Hx. injection Hx as ->.
      destruct Eth; discriminate. }
  destruct (resized_width (shape1 roi) (shape0 roi) th) as [nw|x] eqn:Enw;
    cbn [obind].
  2:{ apply resized_width_Raise in Enw.
      - intros Hx. injection Hx as ->. destruct Enw; discriminate.
      - destruct (padded_roi_large (binarize raw) (select_contours (c0 :: cs))).
        subst roi. lia. }
  destruct (resize roi nw th) as [resized|x] eqn:Eres; cbn [obind].
  2:{ unfold resize in Eres.
      destruct (is_empty roi || (nw <=? 0) || (th <=? 0)); [|discriminate].
      injection Eres as <-. discriminate. }
  destruct (np_zeros (std_size e) nw) as [canvas0|x] eqn:Ezero; cbn [obind].
  2:{ unfold np_zeros in Ezero.
      destruct ((std_size e <? 0) || (nw <? 0)); [|discriminate].
      injection Ezero as <-. discriminate. }
  destruct (baseline e) as [b|x] eqn:Eb; cbn [obind].
  2:{ apply int_times_Raise in Eb. intros Hx. injection Hx as ->.
      destruct Eb; discriminate. }
  destruct (placement e (lower char_ref) b th) as [st|x] eqn:Est; cbn [obind].
  2:{ apply placement_Raise in Est. intros Hx. injection Hx as ->.
      destruct Est; discriminate. }
  destruct (setslice _ _ _ _ _ _) as [canvas1|x] eqn:Eset; cbn [obind].
  - discriminate.
  - unfold setslice in Eset.
    destruct (broadcasts _ _ && broadcasts _ _); [discriminate|].
    injection Eset as <-. discriminate.
Qed.

(** X6: a returned glyph is never empty, and it is cut from a padded crop
    of at least 20x20 pixels: its width and the height of the resized
    letter are at least one, and the letter is no higher than the glyph. *)
Theorem glyph_is_never_empty `{Platform} (fs : World) (e : Engine)
    (image_path char_ref : pystr) (t : locals) (img : Image) :
  process_letter_contour_trace fs e image_path char_ref = Ret (Some (t, img)) ->
  1 <= width img /\
  1 <= l_new_h t <= height img /\
  20 <= l_h t /\ 20 <= l_w t.
Proof.
  intros Hrun.
  destruct (trace_inv fs e _ _ _ _ Hrun)
    as (raw & resized & canvas0 & canvas1 & start0 & Hsteps).
  cbv zeta in Hsteps.
  destruct Hsteps as (_ & _ & _ & _ & _ & Hh & Hw & _ & Hth & Hnh & _ & Hres
                      & _ & Hzero & _ & _ & Hstart & Hset & Himg).
  pose proof (resize_Ret _ _ _ _ Hres) as (Hwpos & Hpos & Hrows & _).
  apply np_zeros_Ret in Hzero. destruct Hzero as (Hstd & _ & Hc0 & _).
  pose proof (setslice_Ret _ _ _ _ _ _ _ Hset) as (Hb & _).
  rewrite Hc0, Hrows, Hstart in Hb.
  assert (Hlo : 0 <= clamp e start0 (l_new_h t)).
  { apply clamp_lower; try assumption; try lia.
    intros Hz Hone. pose proof (target_height_zero_size e _ _ Hz Hth). lia. }
  pose proof (clamp_upper e start0 (l_new_h t)) as Hhi.
  destruct (padded_roi_large (binarize raw) (l_valid_contours t)) as [H0 H1].
  subst img. cbn [width height colorize].
  repeat split; lia.
Qed.

Lemma glyph_is_never_empty_witness :
  exists t img,
    Fixture.run [Fixture.block] default_engine (py "my_letters/y/1.PNG") (py "y")
      = Ret (Some (t, img)) /\
    1 <= width img /\ 1 <= l_new_h t <= height img.
Proof.
  evaluate_run (Fixture.run [Fixture.block] default_engine
                            (py "my_letters/y/1.PNG") (py "y")) t img E.
  exists t, img. split; [exact E|].
  pose proof (glyph_is_never_empty
                (Fixture.world [Fixture.block]) default_engine
                (py "my_letters/y/1.PNG") (py "y") t img E)
    as (Hw & Hh & _).
  split; [exact Hw | exact Hh].
Defined.

(** ** The ink flow *)

Lemma dilate_2x2_keeps (a : ndarray) (i j : Z) :
  in_bounds a i j = true -> item a i j <= item (dilate_2x2 a) i j.
Proof. intros Hb. cbn [item dilate_2x2]. rewrite Hb. lia. Qed.

Lemma dilate_2x2_source (a : ndarray) (i j t : Z) :
  0 <= t -> item (dilate_2x2 a) i j > t ->
  exists di dj,
    0 <= di <= 1 /\ 0 <= dj <= 1 /\
    in_bounds a (i - di) (j - dj) = true /\ item a (i - di) (j - dj) > t.
Proof.
  intros Ht. cbn [item dilate_2x2]. intros Hmax.
  destruct (in_bounds a (i - 1) (j - 1)) eqn:E11;
    [destruct (Z_gt_le_dec (item a (i - 1) (j - 1)) t);
     [exists 1, 1; repeat split; try lia; assumption|]|].
  all: destruct (in_bounds a (i - 1) j) eqn:E10;
    [destruct (Z_gt_le_dec (item a (i - 1) j) t);
     [exists 1, 0; rewrite Z.sub_0_r; repeat split; try lia; assumption|]|].
  all: destruct (in_bounds a i (j - 1)) eqn:E01;
    [destruct (Z_gt_le_dec (item a i (j - 1)) t);
     [exists 0, 1; rewrite Z.sub_0_r; repeat split; try lia; assumption|]|].
  all: destruct (in_bounds a i j) eqn:E00;
    [destruct (Z_gt_le_dec (item a i j) t);
     [exists 0, 0; rewrite !Z.sub_0_r; repeat split; try lia; assumption|]|].
  all: lia.
Qed.

Lemma in_bounds_dilate (a : ndarray) (i j : Z) :
  in_bounds (dilate_2x2 a) i j = in_bounds a i j.
Proof. reflexivity. Qed.

(** The ink flow never erases ink. *)
Lemma ink_flow_keeps_ink (a : ndarray) (i j : Z) :
  in_bounds a i j = true -> item a i j > 127 -> item (ink_flow a) i j = 255.
Proof.
  intros Hb Hink. unfold ink_flow, dilate.
  change (Nat.iter 2 dilate_2x2 a) with (dilate_2x2 (dilate_2x2 a)).
  cbn [item threshold_binary].
  pose proof (dilate_2x2_keeps a i j Hb).
  pose proof (dilate_2x2_keeps (dilate_2x2 a) i j Hb).
  destruct (Z.gtb_spec (item (dilate_2x2 (dilate_2x2 a)) i j) 127);
    [reflexivity|lia].
Qed.

(** Ink after the flow lies at most two pixels below and to the right of
    ink before it. *)
Lemma ink_flow_source (a : ndarray) (i j : Z) :
  item (ink_flow a) i j <> 0 ->
  exists di dj,
    0 <= di <= 2 /\ 0 <= dj <= 2 /\
    in_bounds a (i - di) (j - dj) = true /\ item a (i - di) (j - dj) > 127.
Proof.
  unfold ink_flow, dilate.
  change (Nat.iter 2 dilate_2x2 a) with (dilate_2x2 (dilate_2x2 a)).
  cbn [item threshold_binary].
  destruct (Z.gtb_spec (item (dilate_2x2 (dilate_2x2 a)) i j) 127) as [Hgt|];
    [|intros Hn; now elim Hn].
  intros _.
  apply Z.lt_gt in Hgt.
  apply dilate_2x2_source in Hgt; [|lia].
  destruct Hgt as (d1 & e1 & Hd1 & He1 & _ & Hgt).
  apply dilate_2x2_source in Hgt; [|lia].
  destruct Hgt as (d2 & e2 & Hd2 & He2 & Hb & Hgt).
  exists (d1 + d2), (e1 + e2).
  replace (i - (d1 + d2)) with (i - d1 - d2) by lia.
  replace (j - (e1 + e2)) with (j - e1 - e2) by lia.
  repeat split; try lia; assumption.
Qed.

(** The canvas after line 110: the resized glyph on the rows from
    [start_y], and background elsewhere. *)
Lemma composite_item (canvas0 resized canvas1 : ndarray) (std start_y new_h new_w : Z) :
  np_zeros std new_w = Ret canvas0 ->
  shape0 resized = new_h -> shape1 resized = new_w ->
  0 <= start_y -> start_y + new_h <= std -> 1 <= new_h -> 1 <= new_w ->
  setslice canvas0 start_y (start_y + new_h) 0 new_w resized = Ret canvas1 ->
  shape0 canvas1 = std /\ shape1 canvas1 = new_w /\
  forall i j,
    item canvas1 i j
    = if (start_y <=? i) && (i <? start_y + new_h) && (0 <=? j) && (j <? new_w)
      then item resized (i - start_y) j else 0.
Proof.
  intros Hzero Hrows Hcols Hlo Hhi Hnh Hnw Hset.
  unfold np_zeros in Hzero.
  destruct ((std <? 0) || (new_w <? 0)); [discriminate|].
  injection Hzero as <-.
  unfold setslice in Hset. cbn [shape0 shape1 item] in Hset.
  destruct (broadcasts _ _ && broadcasts _ _); [|discriminate].
  injection Hset as <-. cbn [shape0 shape1 item].
  split; [reflexivity|]. split; [reflexivity|].
  intros i j.
  rewrite (slice_len_exact std start_y new_h) by lia.
  replace (slice_len new_w 0 new_w) with new_w
    by (symmetry; apply (slice_len_exact new_w 0 new_w); lia).
  assert (Hr : slice_index std start_y = start_y).
  { unfold slice_index. destruct (Z.ltb_spec start_y 0); lia. }
  assert (Hc : slice_index new_w 0 = 0).
  { unfold slice_index. cbn. lia. }
  rewrite Hr, Hc, Z.add_0_l, Z.sub_0_r.
  destruct ((start_y <=? i) && (i <? start_y + new_h) && (0 <=? j) && (j <? new_w))
    eqn:Ein; [|reflexivity].
  repeat (apply andb_true_iff in Ein; destruct Ein as [Ein ?]).
  apply Z.leb_le in Ein. repeat match goal with
    | Hx : (_ <? _) = true |- _ => apply Z.ltb_lt in Hx
    | Hx : (_ <=? _) = true |- _ => apply Z.leb_le in Hx
    end.
  rewrite Hrows, Hcols.
  destruct (Z.eqb_spec new_h 1); destruct (Z.eqb_spec new_w 1);
    f_equal; lia.
Qed.

(** X5: in a returned glyph, ink of the resized letter is opaque (the ink
    flow never erases), and every pixel that is not transparent lies at
    most two pixels below and to the right of ink of the resized letter;
    the letter occupies the rows from [start_y]. *)
Theorem ink_flow_spreads_ink `{Platform} (fs : World) (e : Engine)
    (image_path char_ref : pystr) (t : locals) (img : Image) :
  process_letter_contour_trace fs e image_path char_ref = Ret (Some (t, img)) ->
  exists raw resized,
    imread fs image_path = Some raw /\
    resize (padded_roi (binarize raw) (l_valid_contours t))
           (l_new_w t) (l_new_h t) = Ret resized /\
    forall x y,
      0 <= x < width img -> 0 <= y < height img ->
      (l_start_y t <= y < l_start_y t + l_new_h t ->
       item resized (y - l_start_y t) x > 127 ->
       alpha_at img x y = 255) /\
      (alpha_at img x y <> 0 ->
       exists dx dy,
         0 <= dx <= 2 /\ 0 <= dy <= 2 /\
         0 <= x - dx /\
         l_start_y t <= y - dy < l_start_y t + l_new_h t /\
         item resized (y - dy - l_start_y t) (x - dx) > 127).
Proof.
  intros Hrun.
  destruct (trace_inv fs e _ _ _ _ Hrun)
    as (raw & resized & canvas0 & canvas1 & start0 & Hsteps).
  cbv zeta in Hsteps.
  destruct Hsteps as (Hread & _ & _ & _ & _ & _ & _ & _ & Hth & Hnh & _ & Hres
                      & _ & Hzero & _ & _ & Hstart & Hset & Himg).
  exists raw, resized. split; [exact Hread|]. split; [exact Hres|].
  pose proof (resize_Ret _ _ _ _ Hres) as (Hwpos & Hpos & Hrows & Hcols).
  pose proof (np_zeros_Ret _ _ _ Hzero) as (Hstd & _ & Hc0 & _).
  pose proof (setslice_Ret _ _ _ _ _ _ _ Hset) as (Hb & _).
  rewrite Hc0, Hrows, Hstart in Hb.
  assert (Hlo : 0 <= l_start_y t).
  { rewrite Hstart. apply clamp_lower; try assumption; try lia.
    intros Hz Hone. pose proof (target_height_zero_size e _ _ Hz Hth). lia. }
  assert (Hhi : l_start_y t + l_new_h t <= std_size e).
  { rewrite Hstart. apply clamp_upper. }
  destruct (composite_item _ _ _ _ _ _ _ Hzero Hrows Hcols Hlo Hhi
                           ltac:(lia) ltac:(lia) Hset)
    as (Hs0 & Hs1 & Hitem).
  intros x y Hx Hy. subst img. unfold alpha_at.
  cbn [getpixel colorize width height] in *.
  destruct (ink_color e) as [[r g] b].
  assert (Hin : in_bounds canvas1 y x = true).
  { unfold in_bounds. rewrite Hs0, Hs1.
    repeat (apply andb_true_iff; split);
      try apply Z.leb_le; try apply Z.ltb_lt; lia. }
  split.
  - intros Hrow Hink. apply ink_flow_keeps_ink; [exact Hin|].
    rewrite Hitem.
    replace ((l_start_y t <=? y) && (y <? l_start_y t + l_new_h t)
             && (0 <=? x) && (x <? l_new_w t)) with true; [exact Hink|].
    symmetry. repeat (apply andb_true_iff; split);
      try apply Z.leb_le; try apply Z.ltb_lt; lia.
  - intros Ha. apply ink_flow_source in Ha.
    destruct Ha as (dy & dx & Hdy & Hdx & Hbnd & Hink).
    rewrite Hitem in Hink.
    destruct ((l_start_y t <=? y - dy) && (y - dy <? l_start_y t + l_new_h t)
              && (0 <=? x - dx) && (x - dx <? l_new_w t)) eqn:Ein; [|lia].
    repeat (apply andb_true_iff in Ein; destruct Ein as [Ein ?]).
    apply Z.leb_le in Ein. repeat match goal with
      | Hx : (_ <? _) = true |- _ => apply Z.ltb_lt in Hx
      | Hx : (_ <=? _) = true |- _ => apply Z.leb_le in Hx
      end.
    exists dx, dy. repeat split; first [lia | exact Hink].
Qed.

Lemma ink_flow_spreads_ink_witness :
  exists t img,
    Fixture.run [Fixture.block] default_engine (py "my_letters/a/1.PNG") (py "a")
      = Ret (Some (t, img)) /\
    exists resized,
      (l_start_y t <= 30 < l_start_y t + l_new_h t ->
       item resized (30 - l_start_y t) 6 > 127 ->
       alpha_at img 6 30 = 255).
Proof.
  evaluate_run (Fixture.run [Fixture.block] default_engine
                            (py "my_letters/a/1.PNG") (py "a")) t img E.
  exists t, img. split; [exact E|].
  destruct (ink_flow_spreads_ink
              (Fixture.world [Fixture.block]) default_engine
              (py "my_letters/a/1.PNG") (py "a") t img E)
    as (raw & resized & _ & _ & Hpix).
  exists resized.
  destruct (glyph_size (Fixture.world [Fixture.block]) default_engine
                       _ _ t img E) as (Hh & Hw).
  assert (Hx : 0 <= 6 < width img).
  { rewrite Hw. vm_compute in Hl. injection Hl as <-. simpl. lia. }
  assert (Hy : 0 <= 30 < height img).
  { rewrite Hh. simpl. lia. }
  exact (proj1 (Hpix 6 30 Hx Hy)).
Defined.

(** * Further properties of the composer *)

(** ** Folders *)

Lemma in_range (lo n : nat) (c : N) :
  (N.of_nat lo <= c < N.of_nat (lo + n))%N -> In c (map N.of_nat (seq lo n)).
Proof.
  intros Hc. rewrite <- (N2Nat.id c). apply in_map. apply in_seq. lia.
Qed.

(** X7: an upper-case ASCII letter is looked up in the folder of its
    lower-case letter and normalised as that letter: the two have the
    same item, whatever the store and the state of the generator. *)
Theorem uppercase_uses_lowercase_glyph `{Platform} (fs : World) (e : Engine)
    (fallback_width : Z) (char : pychar) :
  (65 <= char <= 90)%N ->
  char_item fs e fallback_width char
  = char_item fs e fallback_width (char + 32)%N.
Proof.
  intros Hc.
  assert (Hin : In char (map N.of_nat (seq 65 26))) by (apply in_range; lia).
  cbn in Hin.
  assert (Hdir : char_dir_of e char = char_dir_of e (char + 32)%N).
  { repeat (destruct Hin as [<-|Hin]; [reflexivity|]). destruct Hin. }
  assert (Hlow : lower [char] = lower [(char + 32)%N]).
  { repeat (destruct Hin as [<-|Hin]; [reflexivity|]). destruct Hin. }
  unfold char_item. rewrite Hdir.
  unfold process_letter_contour, process_letter_contour_trace.
  rewrite Hlow. reflexivity.
Qed.

Lemma uppercase_uses_lowercase_glyph_witness :
  @char_item (Fixture.platform [Fixture.block]) (Fixture.world [Fixture.block])
             default_engine 25 (ord "Y")
  = @char_item (Fixture.platform [Fixture.block]) (Fixture.world [Fixture.block])
               default_engine 25 (ord "y").
Proof.
  apply (@uppercase_uses_lowercase_glyph (Fixture.platform [Fixture.block])
           (Fixture.world [Fixture.block]) default_engine 25 (ord "Y")).
  vm_compute. split; discriminate.
Defined.

Lemma folder_checked : forallb folder_check (map N.of_nat (seq 0 128)) = true.
Proof. vm_compute. reflexivity. Qed.

Lemma endswith_slash (a : pystr) :
  endswith a (py "/") = true <-> exists p, a = p ++ py "/".
Proof.
  unfold endswith. cbn [py List.length map list_ascii_of_string].
  rewrite andb_true_iff, Nat.leb_le. split.
  - intros [Heq _]. apply pystr_eqb_eq in Heq.
    exists (firstn (List.length a - 1) a).
    rewrite <- Heq. symmetry. apply firstn_skipn.
  - intros [p ->]. rewrite length_app. cbn [List.length]. split; [|lia].
    replace (List.length p + 1 - 1)%nat with (List.length p + 0)%nat by lia.
    rewrite skipn_app, Nat.add_0_r, skipn_all.
    replace (List.length p - List.length p)%nat with 0%nat by lia.
    cbn [skipn app]. apply pystr_eqb_eq. reflexivity.
Qed.

Lemma os_path_join_relative (a b : pystr) :
  b <> [] -> ~ In 47%N b ->
  exists sep,
    (sep = [] \/ sep = py "/") /\
    (sep = [] <-> a = [] \/ exists p, a = p ++ py "/") /\
    os_path_join a b = a ++ sep ++ b.
Proof.
  intros Hb Hsep. destruct b as [|b0 rest]; [now elim Hb|].
  unfold os_path_join, startswith. cbn [py List.length firstn map list_ascii_of_string].
  cbn [pystr_eqb]. unfold pychar_eqb.
  destruct (N.eqb_spec b0 (ord "/")) as [->|_].
  - elim Hsep. left. reflexivity.
  - cbn [andb].
    match goal with
    | |- context [if ?b then _ else _] => destruct b eqn:Ea
    end.
    + exists []. split; [now left|]. split; [|reflexivity].
      split; [intros _|reflexivity].
      apply orb_true_iff in Ea. destruct Ea as [Ea|Ea].
      * left. destruct a; [reflexivity|discriminate].
      * right. now apply endswith_slash.
    + exists (py "/"). split; [now right|]. split; [|reflexivity].
      split; [discriminate|]. intros Ha. exfalso.
      apply orb_false_iff in Ea. destruct Ea as [Enil Eend].
      destruct Ha as [->|Hp]; [discriminate|].
      apply endswith_slash in Hp.
      change (endswith a (py "/") = false) in Eend. congruence.
Qed.

(** X8: the folder of an ASCII character is directly under [base_path]:
    its path is [base_path], a separator, left out exactly when
    [base_path] is empty or ends with one, and a name that is not empty
    and holds no slash. *)
Theorem char_dir_under_base_path `{Platform} (e : Engine) (char : pychar) :
  is_ascii char = true ->
  exists sep folder_name,
    (sep = [] \/ sep = py "/") /\
    (sep = [] <-> base_path e = [] \/ exists p, base_path e = p ++ py "/") /\
    folder_name <> [] /\ ~ In 47%N folder_name /\
    char_dir_of e char = base_path e ++ sep ++ folder_name.
Proof.
  intros Hascii.
  assert (Hin : In char (map N.of_nat (seq 0 128))).
  { apply in_range. unfold is_ascii in Hascii. apply N.ltb_lt in Hascii.
    cbn. lia. }
  pose proof (proj1 (forallb_forall _ _) folder_checked char Hin) as Hcheck.
  unfold folder_check in Hcheck.
  apply andb_true_iff in Hcheck. destruct Hcheck as [Hslash Hname].
  assert (Hlow : lower [char] = map ascii_lower [char]).
  { unfold lower. cbn [forallb]. now rewrite Hascii. }
  unfold char_dir_of. rewrite Hlow.
  set (folder_name := dict_get SPECIAL_CHAR_MAP [char] (map ascii_lower [char])) in *.
  assert (Hne : folder_name <> []).
  { destruct folder_name; [discriminate|discriminate]. }
  assert (Hno : ~ In 47%N folder_name).
  { intros Hc. apply negb_true_iff in Hslash.
    assert (Hex : existsb (N.eqb 47) folder_name = true).
    { apply existsb_exists. exists 47%N. split; [exact Hc|apply N.eqb_refl]. }
    rewrite Hex in Hslash. discriminate. }
  destruct (os_path_join_relative (base_path e) folder_name Hne Hno)
    as (sep & Hsep & Hwhen & Hjoin).
  exists sep, folder_name. auto.
Qed.

Lemma char_dir_under_base_path_witness :
  exists folder_name,
    folder_name <> [] /\ ~ In 47%N folder_name /\
    @char_dir_of (Fixture.platform []) default_engine (ord "/")
    = py "my_letters" ++ py "/" ++ folder_name.
Proof.
  destruct (@char_dir_under_base_path (Fixture.platform []) default_engine
              (ord "/") eq_refl)
    as (sep & folder_name & Hsep & Hwhen & Hne & Hno & Hdir).
  exists folder_name. split; [exact Hne|]. split; [exact Hno|].
  destruct Hsep as [Hnil| ->]; [|exact Hdir].
  exfalso. apply Hwhen in Hnil. destruct Hnil as [Hb|[p Hp]]; [discriminate|].
  apply (f_equal (@rev pychar)) in Hp. rewrite rev_app_distr in Hp.
  discriminate.
Defined.

(** ** Words *)

Lemma split_not_nil (sep : pychar) (s : pystr) : split sep s <> [].
Proof.
  induction s as [|c s IH]; simpl; [discriminate|].
  destruct (pychar_eqb c sep); [discriminate|].
  destruct (split sep s); [now elim IH|discriminate].
Qed.

Lemma split_concat (sep : pychar) (s : pystr) :
  List.concat (split sep s) = filter (fun c => negb (pychar_eqb c sep)) s.
Proof.
  induction s as [|c s IH]; simpl; [reflexivity|].
  destruct (pychar_eqb c sep); simpl; [exact IH|].
  destruct (split sep s) as [|w ws] eqn:E.
  - now elim (split_not_nil sep s).
  - simpl in *. now rewrite IH.
Qed.

Lemma split_no_sep (sep : pychar) (s : pystr) :
  Forall (fun w => ~ In sep w) (split sep s).
Proof.
  induction s as [|c s IH]; simpl.
  - constructor; [intros []|constructor].
  - destruct (pychar_eqb c sep) eqn:Ec.
    + constructor; [intros []|exact IH].
    + destruct (split sep s) as [|w ws]; [repeat constructor|].
      * intros [Hc|[]]. subst c. unfold pychar_eqb in Ec.
        now rewrite N.eqb_refl in Ec.
      * inversion IH as [|? ? Hw Hws]; subst. constructor; [|exact Hws].
        intros [Hc|Hc]; [|now apply Hw]. subst c. unfold pychar_eqb in Ec.
        now rewrite N.eqb_refl in Ec.
Qed.

Lemma split_chars (sep : pychar) (s : pystr) (w : pystr) (c : pychar) :
  In w (split sep s) -> In c w -> In c s.
Proof.
  intros Hw Hc.
  assert (Hin : In c (List.concat (split sep s))).
  { apply in_concat. now exists w. }
  rewrite split_concat in Hin. now apply filter_In in Hin.
Qed.

(** X9: the words of a text hold, in order, exactly the characters of the
    text that are neither spaces nor newlines; no word holds a space or a
    newline, so none of them is ever looked up or drawn. *)
Theorem words_cover_text (text : pystr) :
  List.concat (words_of text) = filter (fun c => negb (is_separator c)) text /\
  Forall (fun w => forall c, In c w -> is_separator c = false) (words_of text).
Proof.
  unfold words_of. split.
  - assert (Hlines : forall lines,
              List.concat (flat_map (split (ord " ")) lines)
              = filter (fun c => negb (pychar_eqb c (ord " ")))
                       (List.concat lines)).
    { induction lines as [|l ls IH]; [reflexivity|].
      cbn [flat_map List.concat].
      now rewrite concat_app, filter_app, IH, split_concat. }
    rewrite Hlines, split_concat.
    induction text as [|c text IH]; [reflexivity|].
    cbn [filter]. unfold is_separator at 1.
    destruct (pychar_eqb c (ord "010"%char)); cbn [negb].
    + rewrite orb_true_r. cbn [negb]. exact IH.
    + rewrite orb_false_r. cbn [filter].
      destruct (pychar_eqb c (ord " ")); cbn [negb]; now rewrite IH.
  - apply Forall_forall. intros w Hw c Hc.
    apply in_flat_map in Hw. destruct Hw as (line & Hline & Hw).
    unfold is_separator. apply orb_false_iff. split.
    + pose proof (split_no_sep (ord " ") line) as Hns.
      rewrite Forall_forall in Hns. specialize (Hns w Hw).
      destruct (pychar_eqb c (ord " ")) eqn:E; [|reflexivity].
      unfold pychar_eqb in E. apply N.eqb_eq in E. subst c. contradiction.
    + pose proof (split_no_sep (ord "010"%char) text) as Hns.
      rewrite Forall_forall in Hns. specialize (Hns line Hline).
      pose proof (split_chars _ _ _ _ Hw Hc) as Hcl.
      destruct (pychar_eqb c (ord "010"%char)) eqn:E; [|reflexivity].
      unfold pychar_eqb in E. apply N.eqb_eq in E. subst c. contradiction.
Qed.

(** ** Where glyphs are pasted *)

Lemma binary_round_aux_sign (sx : bool) (mx ex : Z) (lx : location) :
  match binary_round_aux Float.prec Float.emax sx mx ex lx with
  | S754_zero s | S754_infinity s | S754_finite s _ _ => s = sx
  | S754_nan => True
  end.
Proof.
  unfold binary_round_aux.
  destruct (shr_fexp _ _ _ _ _) as [mrs' e'].
  destruct (shr_fexp _ _ _ _ _) as [mrs'' e''].
  destruct (shr_m mrs''); try exact I; try reflexivity.
  destruct (_ <=? _); reflexivity.
Qed.

(** The product of a natural number and a positive constant truncates to
    a natural number. *)
Lemma int_times_nonneg (n : Z) (m : positive) (ex v : Z) :
  0 <= n -> int_times n (S754_finite false m ex) = Ret v -> 0 <= v.
Proof.
  intros Hn. unfold int_times, Float.int_mul, Float.of_int.
  assert (Hs : match binary_normalize Float.prec Float.emax n 0 false with
               | S754_zero s | S754_infinity s | S754_finite s _ _ => s = false
               | S754_nan => True
               end).
  { destruct n as [|p|p]; [reflexivity| |lia].
    unfold binary_normalize, binary_round.
    destruct (shl_align _ _ _) as [mz ez]. apply binary_round_aux_sign. }
  destruct (binary_normalize Float.prec Float.emax n 0 false) as [s|s| |s m' e'];
    cbn [Float.is_finite obind]; try discriminate; subst s.
  - cbn [SFmul xorb Float.to_int]. intros Hv. injection Hv as <-. lia.
  - cbn [SFmul xorb].
    pose proof (binary_round_aux_sign false (Zpos (m' * m)) (e' + ex) loc_Exact)
      as Hr.
    destruct (binary_round_aux _ _ _ _ _ _) as [s|s| |s m2 e2];
      cbn [Float.to_int]; try discriminate.
    + intros Hv. injection Hv as <-. lia.
    + subst s. intros Hv. injection Hv as <-.
      destruct e2 as [|p|p].
      * rewrite Z.shiftl_0_r. lia.
      * apply Z.shiftl_nonneg. lia.
      * apply Z.shiftr_nonneg. lia.
Qed.

Section PlacementFacts.
Context `{Platform}.
Variable fs : World.
Variable e : Engine.

(** The item of a character with a glyph is as wide as the glyph plus the
    character spacing, and the glyph is at least one pixel wide. *)
Lemma char_item_width (fallback_width : Z) (char : pychar) (s s' : rng)
    (it : word_item) :
  char_item fs e fallback_width char s = Ret (it, s') ->
  match fst it with
  | Some g => snd it = width g + char_spacing e /\ 1 <= width g
  | None => snd it = fallback_width
  end.
Proof.
  unfold char_item.
  destruct (isdir fs (char_dir_of e char)).
  2:{ unfold mret. intros Hr. injection Hr as <- _. reflexivity. }
  destruct (variants_of fs (char_dir_of e char)) as [|v0 vs].
  { unfold mret. intros Hr. injection Hr as <- _. reflexivity. }
  intros Hr. apply mbind_Ret in Hr. destruct Hr as (v & s1 & _ & Hr).
  apply mbind_Ret in Hr. destruct Hr as (img & s2 & Hplc & Hr).
  destruct img as [g|]; unfold mret in Hr; injection Hr as <- _;
    [|reflexivity].
  cbn [fst snd]. split; [reflexivity|].
  unfold process_letter_contour, lift in Hplc.
  destruct (process_letter_contour_trace fs e _ [char]) as [[[t g']|]|] eqn:Et;
    cbn [obind option_map] in Hplc; try discriminate.
  injection Hplc as <- _. cbn [snd].
  destruct (glyph_size fs e _ _ _ _ Et) as (_ & ->).
  destruct (trace_inv fs e _ _ _ _ Et)
    as (raw & resized & canvas0 & canvas1 & start0 & Hsteps).
  cbv zeta in Hsteps.
  destruct Hsteps as (_ & _ & _ & _ & _ & _ & _ & _ & _ & _ & _ & Hres & _).
  apply resize_Ret in Hres. lia.
Qed.

(** The items of a scanned word, one by one. *)
Lemma scan_word_items (fallback_width : Z) (word : pystr) :
  forall (items : list word_item) (total : Z) (s s' : rng)
         (items' : list word_item) (total' : Z),
    scan_word fs e fallback_width word items total s = Ret ((items', total'), s') ->
    exists new,
      items' = items ++ new /\
      Forall (fun it => match fst it with
                        | Some g => snd it = width g + char_spacing e /\ 1 <= width g
                        | None => snd it = fallback_width
                        end) new.
Proof.
  induction word as [|char rest IH]; intros items total s s' items' total' Hscan.
  - simpl in Hscan. unfold mret in Hscan. injection Hscan as <- _ _.
    exists []. rewrite app_nil_r. split; [reflexivity|constructor].
  - simpl in Hscan. apply mbind_Ret in Hscan.
    destruct Hscan as (it & s1 & Hit & Hrest).
    apply IH in Hrest. destruct Hrest as (new & -> & Hall).
    exists (it :: new). rewrite <- app_assoc. split; [reflexivity|].
    constructor; [|exact Hall]. exact (char_item_width _ _ _ _ _ Hit).
Qed.

(** The pastes of items of width at least 0 begin at or right of the pen
    and end at or left of where the pen stops. *)
Lemma placed_between (items : list word_item) :
  forall x y,
    Forall (fun it => match fst it with
                      | Some g => snd it = width g + char_spacing e /\ 1 <= width g
                      | None => 0 <= snd it
                      end) items ->
    0 <= char_spacing e ->
    Forall (fun p => x <= fst (snd p) /\
                     fst (snd p) + width (fst p) <= x + total_width items /\
                     snd (snd p) = y)
           (placed x y items).
Proof.
  induction items as [|[[g|] w] items IH]; intros x y Hall Hsp; cbn [placed].
  - constructor.
  - change (total_width ((Some g, w) :: items)) with (w + total_width items).
    inversion Hall as [|? ? Hit Hrest]; subst. cbn [fst snd] in Hit.
    assert (Htot : 0 <= total_width items).
    { clear - Hrest Hsp. induction Hrest as [|[[g'|] w'] l Hx Hl IHl];
        unfold total_width in *; cbn [fold_right fst snd] in *; lia. }
    constructor.
    + cbn [fst snd]. lia.
    + specialize (IH (x + w) y Hrest Hsp).
      eapply Forall_impl; [|exact IH]. cbn beta. intros p (Hp1 & Hp2 & Hp3).
      lia.
  - change (total_width ((None, w) :: items)) with (w + total_width items).
    inversion Hall as [|? ? Hit Hrest]; subst. cbn [fst snd] in Hit.
    specialize (IH (x + w) y Hrest Hsp).
    eapply Forall_impl; [|exact IH]. cbn beta. intros p (Hp1 & Hp2 & Hp3).
    lia.
Qed.

Lemma total_width_nonneg (items : list word_item) :
  Forall (fun it => match fst it with
                    | Some g => snd it = width g + char_spacing e /\ 1 <= width g
                    | None => 0 <= snd it
                    end) items ->
  0 <= char_spacing e ->
  0 <= total_width items.
Proof.
  intros Hall Hsp. induction Hall as [|[[g|] w] l Hx Hl IHl];
    unfold total_width in *; cbn [fold_right fst snd] in *; lia.
Qed.

End PlacementFacts.

Lemma rows_descend_app (a b : list Z) :
  rows_descend a -> rows_descend b ->
  (forall x z, In x a -> In z b -> x <= z) ->
  rows_descend (a ++ b).
Proof.
  induction a as [|y a IH]; intros Ha Hb Hab; [exact Hb|].
  cbn [app rows_descend] in *. destruct Ha as [Hy Ha]. split.
  - apply Forall_app. split; [exact Hy|].
    apply Forall_forall. intros z Hz. apply Hab; [now left|exact Hz].
  - apply IH; [exact Ha|exact Hb|]. intros x z Hx Hz. apply Hab; [now right|exact Hz].
Qed.

Lemma rows_descend_same (y : Z) (l : list Z) :
  Forall (fun z => z = y) l -> rows_descend l.
Proof.
  induction 1 as [|z l Hz Hl IH]; [exact I|].
  cbn [rows_descend]. split; [|exact IH].
  eapply Forall_impl; [|exact Hl]. cbn beta. intros w ->. lia.
Qed.

Section PageInvariant.
Context `{Platform}.
Variable fs : World.
Variable e : Engine.
Variables pixels_per_space fallback_width : Z.
Hypothesis pixels_per_space_nonneg : 0 <= pixels_per_space.
Hypothesis fallback_width_nonneg : 0 <= fallback_width.
Hypothesis char_spacing_nonneg : 0 <= char_spacing e.
Hypothesis line_height_nonneg : 0 <= line_height e.

Lemma scanned_items_nonneg (word : pystr) (s s' : rng)
    (items : list word_item) (total : Z) :
  scan_word fs e fallback_width word [] 0 s = Ret ((items, total), s') ->
  Forall (fun it => match fst it with
                    | Some g => snd it = width g + char_spacing e /\ 1 <= width g
                    | None => 0 <= snd it
                    end) items.
Proof.
  intros Hscan. apply scan_word_items in Hscan.
  destruct Hscan as (new & -> & Hall). cbn [app].
  eapply Forall_impl; [|exact Hall]. cbn beta.
  intros [[g|] w]; cbn [fst snd]; [tauto|]. intros ->. exact fallback_width_nonneg.
Qed.

(** A word keeps the page in order. *)
Lemma do_word_ok (pg : Page) (word : pystr) (s : rng) (pg' : Page) (s' : rng) :
  page_ok e pg ->
  do_word fs e pixels_per_space fallback_width pg word s = Ret (pg', s') ->
  page_ok e pg'.
Proof.
  intros (Hx & (k & Hk & Hy) & Hgrid & Habove & Hrows) Hdo.
  destruct (do_word_inv fs e _ _ _ _ _ _ _ Hdo) as (items & Hscan & _ & Hplace).
  cbv zeta in Hplace. destruct Hplace as (Hp & Hy' & Hx').
  pose proof (scanned_items_nonneg _ _ _ _ _ Hscan) as Hitems.
  pose proof (total_width_nonneg e items Hitems char_spacing_nonneg) as Htot.
  set (wraps := curr_x pg + total_width items >? max_x) in *.
  set (x0 := if wraps then start_x else curr_x pg) in *.
  set (y0 := if wraps then curr_y pg + line_height e else curr_y pg) in *.
  assert (Hx0 : start_x <= x0) by (unfold x0; destruct wraps; lia).
  assert (Hy0 : curr_y pg <= y0) by (unfold y0; destruct wraps; lia).
  assert (Hk0 : exists k0, 0 <= k0 /\ y0 = 200 + k0 * line_height e).
  { unfold y0. destruct wraps; [exists (k + 1)|exists k]; split; lia. }
  pose proof (placed_between e items x0 y0 Hitems char_spacing_nonneg) as Hnew.
  unfold page_ok. rewrite Hp, Hy', Hx'.
  split; [lia|]. split; [exact Hk0|]. split; [|split].
  - apply Forall_app. split; [exact Hgrid|].
    eapply Forall_impl; [|exact Hnew]. cbn beta. intros p (Hp1 & _ & Hp3).
    unfold on_text_line. rewrite Hp3. split; [lia|exact Hk0].
  - apply Forall_app. split.
    + eapply Forall_impl; [|exact Habove]. cbn beta. intros p Hp0. lia.
    + eapply Forall_impl; [|exact Hnew]. cbn beta. intros p (_ & _ & Hp3). lia.
  - rewrite map_app. apply rows_descend_app.
    + exact Hrows.
    + apply (rows_descend_same y0). apply Forall_forall. intros z Hz.
      apply in_map_iff in Hz. destruct Hz as (p & <- & Hp0).
      rewrite Forall_forall in Hnew. now destruct (Hnew p Hp0) as (_ & _ & ?).
    + intros a b Ha Hb.
      apply in_map_iff in Ha. destruct Ha as (p & <- & Hp0).
      apply in_map_iff in Hb. destruct Hb as (q & <- & Hq0).
      rewrite Forall_forall in Habove, Hnew.
      specialize (Habove p Hp0). destruct (Hnew q Hq0) as (_ & _ & ->). lia.
Qed.

Lemma do_words_ok (words : list pystr) :
  forall (pg : Page) (s : rng) (pg' : Page) (s' : rng),
    page_ok e pg ->
    do_words fs e pixels_per_space fallback_width words pg s = Ret (pg', s') ->
    page_ok e pg'.
Proof.
  induction words as [|word rest IH]; intros pg s pg' s' Hok Hdo.
  - simpl in Hdo. unfold mret in Hdo. now injection Hdo as <- _.
  - simpl in Hdo. apply mbind_Ret in Hdo.
    destruct Hdo as (pg1 & s1 & Hword & Hrest).
    eapply IH; [|exact Hrest]. eapply do_word_ok; eassumption.
Qed.

Lemma do_lines_ok (lines : list pystr) :
  forall (pg : Page) (s : rng) (pg' : Page) (s' : rng),
    page_ok e pg ->
    do_lines fs e pixels_per_space fallback_width lines pg s = Ret (pg', s') ->
    page_ok e pg'.
Proof.
  induction lines as [|line rest IH]; intros pg s pg' s' Hok Hdo.
  - simpl in Hdo. unfold mret in Hdo. now injection Hdo as <- _.
  - simpl in Hdo. apply mbind_Ret in Hdo.
    destruct Hdo as (pg1 & s1 & Hwords & Hrest).
    eapply IH; [|exact Hrest].
    pose proof (do_words_ok _ _ _ _ _ Hok Hwords)
      as (Hx & (k & Hk & Hy) & Hgrid & Habove & Hrows).
    unfold page_ok. cbn [curr_x curr_y canvas].
    split; [lia|]. split; [exists (k + 1); split; lia|].
    split; [exact Hgrid|]. split; [|exact Hrows].
    eapply Forall_impl; [|exact Habove]. cbn beta. intros p Hp0. lia.
Qed.

End PageInvariant.

Lemma generate_page_ok `{Platform} (fs : World) (e : Engine) (text : pystr)
    (s : rng) (page : Canvas) (s' : rng) :
  0 <= std_size e -> 0 <= char_spacing e -> 0 <= line_height e ->
  generate fs e text s = Ret (page, s') ->
  Forall (on_text_line e) (pastes page) /\
  rows_descend (map (fun p => snd (snd p)) (pastes page)).
Proof.
  intros Hstd Hsp Hlh Hgen. unfold generate in Hgen.
  apply mbind_Ret in Hgen. destruct Hgen as (pps & s1 & Hpps & Hgen).
  apply mbind_Ret in Hgen. destruct Hgen as (fb & s2 & Hfb & Hgen).
  apply mbind_Ret in Hgen. destruct Hgen as (pg & s3 & Hlines & Hret).
  unfold mret in Hret. injection Hret as <- _.
  unfold lift in Hpps, Hfb.
  destruct (int_times (std_size e) Float.c_0_4) as [v4|] eqn:E4; [|discriminate].
  destruct (int_times (std_size e) Float.c_0_5) as [v5|] eqn:E5; [|discriminate].
  injection Hpps as -> _. injection Hfb as -> _.
  apply int_times_nonneg in E4; [|exact Hstd].
  apply int_times_nonneg in E5; [|exact Hstd].
  assert (Hinit : page_ok e {| canvas := Image_new (2480, 3508) (255, 255, 255, 255);
                               curr_x := start_x; curr_y := 200 |}).
  { unfold page_ok. cbn [curr_x curr_y canvas pastes Image_new map].
    split; [lia|]. split; [exists 0; split; lia|].
    split; [constructor|]. split; [constructor|exact I]. }
  pose proof (do_lines_ok fs e pps fb E4 E5 Hsp Hlh _ _ _ _ _ Hinit Hlines)
    as (_ & _ & Hgrid & _ & Hrows).
  split; assumption.
Qed.

Lemma positions_of_Ret `{Platform} (r : outcome (Canvas * rng)) (ps : list (Z * Z)) :
  positions_of r = Ret ps ->
  exists page s, r = Ret (page, s) /\ map snd (pastes page) = ps.
Proof.
  destruct r as [[page s]|err]; simpl; [|discriminate].
  intros Hr. injection Hr as <-. now exists page, s.
Qed.

(** X10: on a page made by an engine whose sizes are not negative, every
    glyph is pasted at or right of the left margin (x at least 200) and
    on a text line: its y is 200 plus a whole number of line heights. *)
Theorem pastes_on_text_lines `{Platform} (fs : World) (e : Engine)
    (text : pystr) (s : rng) (page : Canvas) (s' : rng) :
  0 <= std_size e -> 0 <= char_spacing e -> 0 <= line_height e ->
  generate fs e text s = Ret (page, s') ->
  Forall (fun p => start_x <= fst (snd p) /\
                   exists k, 0 <= k /\ snd (snd p) = 200 + k * line_height e)
         (pastes page).
Proof.
  intros Hstd Hsp Hlh Hgen.
  exact (proj1 (generate_page_ok fs e text s page s' Hstd Hsp Hlh Hgen)).
Qed.

Lemma pastes_on_text_lines_witness :
  exists page s',
    @generate (Fixture.platform [Fixture.block]) (Fixture.world [Fixture.block])
              default_engine (py "at bc yZ") 0%nat = Ret (page, s') /\
    map snd (pastes page) = [(200, 200); (214, 200); (327, 200)] /\
    Forall (fun p => 200 <= fst (snd p) /\
                     exists k, 0 <= k /\ snd (snd p) = 200 + k * 65)
           (pastes page).
Proof.
  destruct (positions_of_Ret
              (@generate (Fixture.platform [Fixture.block])
                         (Fixture.world [Fixture.block])
                         default_engine (py "at bc yZ") 0%nat)
              [(200, 200); (214, 200); (327, 200)])
    as (page & s' & Hgen & Hpos).
  { vm_compute. reflexivity. }
  exists page, s'. split; [exact Hgen|]. split; [exact Hpos|].
  apply (@pastes_on_text_lines (Fixture.platform [Fixture.block])
           (Fixture.world [Fixture.block]) default_engine
           (py "at bc yZ") 0%nat page s').
  - simpl. lia.
  - simpl. lia.
  - simpl. lia.
  - exact Hgen.
Defined.

(** X11: on such a page the pastes go down the page: no glyph is pasted
    above a glyph pasted before it (the pen never moves up). *)
Theorem pastes_go_down_the_page `{Platform} (fs : World) (e : Engine)
    (text : pystr) (s : rng) (page : Canvas) (s' : rng) :
  0 <= std_size e -> 0 <= char_spacing e -> 0 <= line_height e ->
  generate fs e text s = Ret (page, s') ->
  rows_descend (map (fun p => snd (snd p)) (pastes page)).
Proof.
  intros Hstd Hsp Hlh Hgen.
  exact (proj2 (generate_page_ok fs e text s page s' Hstd Hsp Hlh Hgen)).
Qed.

Lemma pastes_go_down_the_page_witness :
  exists page s',
    @generate (Fixture.platform [Fixture.block]) (Fixture.world [Fixture.block])
              default_engine (py "a t" ++ [ord "010"%char] ++ py "y") 0%nat
    = Ret (page, s') /\
    map snd (pastes page) = [(200, 200); (234, 200); (200, 265)] /\
    rows_descend (map (fun p => snd (snd p)) (pastes page)).
Proof.
  destruct (positions_of_Ret
              (@generate (Fixture.platform [Fixture.block])
                         (Fixture.world [Fixture.block])
                         default_engine
                         (py "a t" ++ [ord "010"%char] ++ py "y") 0%nat)
              [(200, 200); (234, 200); (200, 265)])
    as (page & s' & Hgen & Hpos).
  { vm_compute. reflexivity. }
  exists page, s'. split; [exact Hgen|]. split; [exact Hpos|].
  apply (@pastes_go_down_the_page (Fixture.platform [Fixture.block])
           (Fixture.world [Fixture.block]) default_engine
           (py "a t" ++ [ord "010"%char] ++ py "y") 0%nat page s').
  - simpl. lia.
  - simpl. lia.
  - simpl. lia.
  - exact Hgen.
Defined.

(** ** The right margin *)

(** X12: the glyphs of a word whose items are no wider than the line (at
    most [max_x - start_x] in total) end at or left of the right margin,
    wherever the pen was. A wider word is still placed in one piece: met
    at or right of the left margin, it goes to the next line and runs
    past the right margin. *)
Theorem fitting_word_stays_inside_margin `{Platform} (fs : World) (e : Engine)
    (pixels_per_space fallback_width : Z) (pg : Page) (word : pystr)
    (s : rng) (pg' : Page) (s' : rng) :
  0 <= fallback_width -> 0 <= char_spacing e ->
  do_word fs e pixels_per_space fallback_width pg word s = Ret (pg', s') ->
  exists items new,
    scan_word fs e fallback_width word [] 0 s
    = Ret ((items, total_width items), s') /\
    pastes (canvas pg') = pastes (canvas pg) ++ new /\
    (total_width items <= max_x - start_x ->
       Forall (fun p => fst (snd p) + width (fst p) <= max_x) new) /\
    (start_x <= curr_x pg -> max_x - start_x < total_width items ->
       curr_y pg' = curr_y pg + line_height e /\
       max_x + pixels_per_space < curr_x pg').
Proof.
  intros Hfb Hsp Hdo.
  destruct (do_word_inv fs e _ _ _ _ _ _ _ Hdo) as (items & Hscan & _ & Hplace).
  cbv zeta in Hplace. destruct Hplace as (Hp & Hy & Hx).
  pose proof (scanned_items_nonneg fs e fallback_width Hfb _ _ _ _ _ Hscan)
    as Hitems.
  revert Hp Hy Hx.
  destruct (curr_x pg + total_width items >? max_x) eqn:Ew; intros Hp Hy Hx;
    rewrite Z.gtb_ltb in Ew.
  - apply Z.ltb_lt in Ew.
    exists items. eexists. split; [exact Hscan|]. split; [exact Hp|]. split.
    + intros Hshort.
      pose proof (placed_between e items start_x (curr_y pg + line_height e)
                                 Hitems Hsp) as Hnew.
      eapply Forall_impl; [|exact Hnew]. cbn beta. intros p (_ & Hright & _). lia.
    + intros _ Hlong. split; [exact Hy|]. rewrite Hx. lia.
  - apply Z.ltb_ge in Ew.
    exists items. eexists. split; [exact Hscan|]. split; [exact Hp|]. split.
    + intros _.
      pose proof (placed_between e items (curr_x pg) (curr_y pg) Hitems Hsp)
        as Hnew.
      eapply Forall_impl; [|exact Hnew]. cbn beta. intros p (_ & Hright & _). lia.
    + intros Hleft Hlong. lia.
Qed.

Lemma fitting_word_stays_inside_margin_witness :
  exists pg' s' items new,
    @do_word (Fixture.platform [Fixture.block]) (Fixture.world [Fixture.block])
             default_engine 20 25
             {| canvas := Image_new (2480, 3508) (255, 255, 255, 255);
                curr_x := 2190; curr_y := 200 |}
             (py "at") 0%nat = Ret (pg', s') /\
    pastes (canvas pg') = [] ++ new /\
    (total_width items <= 2000 ->
     Forall (fun p => fst (snd p) + width (fst p) <= 2200) new).
Proof.
  destruct (page_summary_Ret
              (@do_word (Fixture.platform [Fixture.block])
                        (Fixture.world [Fixture.block]) default_engine 20 25
                        {| canvas := Image_new (2480, 3508) (255, 255, 255, 255);
                           curr_x := 2190; curr_y := 200 |}
                        (py "at") 0%nat)
              [(200, 265); (214, 265)] 257 265)
    as (pg' & s' & Hdo & _).
  { vm_compute. reflexivity. }
  destruct (@fitting_word_stays_inside_margin
              (Fixture.platform [Fixture.block]) (Fixture.world [Fixture.block])
              default_engine 20 25 _ (py "at") 0%nat pg' s'
              ltac:(lia) ltac:(simpl; lia) Hdo)
    as (items & new & _ & Hp & Hfit & _).
  exists pg', s', items, new. split; [exact Hdo|]. split; [exact Hp|exact Hfit].
Defined.

(** ** Exceptions *)

Lemma split_head (sep char : pychar) (rest : pystr) :
  pychar_eqb char sep = false ->
  exists w ws, split sep (char :: rest) = (char :: w) :: ws.
Proof.
  intros Hc. cbn [split]. rewrite Hc.
  destruct (split sep rest) as [|w ws] eqn:E.
  - now elim (split_not_nil sep rest).
  - now exists w, ws.
Qed.

(** X13: an exception of the normaliser is not caught: when the sample
    drawn for the first character of a text makes
    [process_letter_contour] raise, [generate] raises the same exception
    and no page is made. *)
Theorem normalization_error_aborts_page `{Platform} (fs : World) (e : Engine)
    (char : pychar) (rest : pystr) (s s1 : rng) (x : exn)
    (v0 v : pystr) (vs : list pystr) (pixels_per_space fallback_width : Z) :
  int_times (std_size e) Float.c_0_4 = Ret pixels_per_space ->
  int_times (std_size e) Float.c_0_5 = Ret fallback_width ->
  is_separator char = false ->
  isdir fs (char_dir_of e char) = true ->
  variants_of fs (char_dir_of e char) = v0 :: vs ->
  random_choice (v0 :: vs) v0 s = Ret (v, s1) ->
  process_letter_contour_trace fs e (os_path_join (char_dir_of e char) v) [char]
  = Raise x ->
  generate fs e (char :: rest) s = Raise x.
Proof.
  intros Hpps Hfb Hsep Hdir Hvar Hchoice Htrace.
  unfold is_separator in Hsep. apply orb_false_iff in Hsep.
  destruct Hsep as [Hspace Hnl].
  destruct (split_head _ _ rest Hnl) as (w0 & lines & Hlines).
  destruct (split_head _ _ w0 Hspace) as (w1 & words & Hwords).
  assert (Hitem : char_item fs e fallback_width char s = Raise x).
  { unfold char_item. rewrite Hdir, Hvar. unfold mbind. rewrite Hchoice.
    unfold process_letter_contour, lift. now rewrite Htrace. }
  unfold generate, mbind, lift. rewrite Hpps, Hfb, Hlines.
  cbn [do_lines]. unfold mbind. rewrite Hwords.
  cbn [do_words]. unfold mbind, do_word, mbind. cbn [scan_word].
  unfold mbind. now rewrite Hitem.
Qed.

(** The thin stroke as the first character of a text. *)
Lemma normalization_error_aborts_page_witness :
  @generate ThinStroke.platform ThinStroke.world default_engine (py ".a") 0%nat
  = Raise cv2_error.
Proof.
  apply (@normalization_error_aborts_page ThinStroke.platform ThinStroke.world
           default_engine (ord ".") (py "a") 0%nat 1%nat cv2_error
           (py "1.png") (py "1.png") [] 20 25).
  - vm_compute. reflexivity.
  - vm_compute. reflexivity.
  - reflexivity.
  - reflexivity.
  - reflexivity.
  - reflexivity.
  - vm_compute. reflexivity.
Defined.

(** ** Lines *)

Section LineFacts.
Context `{Platform}.
Variable fs : World.
Variable e : Engine.


End LineFacts.



(** X15: with no folder under [base_path], [generate] returns the blank
    page for every text, and leaves the random generator as it was. *)
Theorem page_without_store_is_blank `{Platform} (fs : World) (e : Engine)
    (text : pystr) (s : rng) (pixels_per_space fallback_width : Z) :
  (forall p, isdir fs p = false) ->
  int_times (std_size e) Float.c_0_4 = Ret pixels_per_space ->
  int_times (std_size e) Float.c_0_5 = Ret fallback_width ->
  generate fs e text s
  = Ret (Image_new (2480, 3508) (255, 255, 255, 255), s).
Proof.
  intros Hno Hpps Hfb.
  exact (generate_without_store fs e text s pixels_per_space fallback_width
                                Hno Hpps Hfb).
Qed.

Lemma page_without_store_is_blank_witness :
  @generate (Fixture.platform [])
            (@Build_World (Fixture.platform [])
                          (fun _ => false) (fun _ => []) (fun _ => None))
            default_engine (py "no letters here") 5%nat
  = Ret (Image_new (2480, 3508) (255, 255, 255, 255), 5%nat).
Proof.
  apply (@page_without_store_is_blank (Fixture.platform [])
           (@Build_World (Fixture.platform [])
                         (fun _ => false) (fun _ => []) (fun _ => None))
           default_engine (py "no letters here") 5%nat 20 25).
  - intros p. reflexivity.
  - vm_compute. reflexivity.
  - vm_compute. reflexivity.
Defined.
